(** * BOUT++ vector operators (src/field/vecops.cxx) and the Mesh accessors
      (include/bout/mesh.hxx)

    The vector-calculus operators [Grad], [Grad_perp], [Div], [Curl] and
    [V_dot_Grad] are embedded as programs over a store of field and vector
    objects: an operand passed by (const) reference is an address in the
    store, [Vector3D vcn = v;] allocates a fresh object, and
    [vcn.toContravariant()] updates the object it is called on.  The field
    containers, their arithmetic and the differencing engine
    ([DDX], [VDDX], [FDDX], ...) are not part of these two files; they enter
    as interfaces (type classes), one instance per C++ overload, and every
    theorem about the operators holds for any implementation of them.
    [Symbolic] is one implementation, on which the operators can be run.

    [Mesh_hxx] holds the lazily created coordinate system of a [Mesh] and
    the [get] routines.

    The [#ifdef CHECK] message-stack bookkeeping is a debugging trace and is
    left out. *)

From stdpp Require Import base option list strings gmap.

(** ** bout_types.hxx: cell locations *)

Inductive CELL_LOC :=
  | CELL_DEFAULT | CELL_CENTRE | CELL_XLOW | CELL_YLOW | CELL_ZLOW | CELL_VSHIFT.

#[global] Instance CELL_LOC_eq_dec : EqDecision CELL_LOC.
Proof. solve_decision. Defined.

(** ** Overloaded field arithmetic

    One class per C++ operator; the result type is determined by the two
    operand types, as overload resolution does.  [a += b], [a -= b],
    [a *= b] and [a /= b] are read as [a = a + b] and so on. *)

Class OpAdd (A B C : Type) := op_add : A → B → C.
Class OpSub (A B C : Type) := op_sub : A → B → C.
Class OpMul (A B C : Type) := op_mul : A → B → C.
Class OpDiv (A B C : Type) := op_div : A → B → C.
#[global] Hint Mode OpAdd ! ! - : typeclass_instances.
#[global] Hint Mode OpSub ! ! - : typeclass_instances.
#[global] Hint Mode OpMul ! ! - : typeclass_instances.
#[global] Hint Mode OpDiv ! ! - : typeclass_instances.

Declare Scope field_scope.
Delimit Scope field_scope with F.
Infix "+" := op_add : field_scope.
Infix "-" := op_sub : field_scope.
Infix "*" := op_mul : field_scope.
Infix "/" := op_div : field_scope.

(** ** derivs.hxx: the differencing engine, by operand type

    [Derivs A R]: first derivatives of an [A]; [R] is [Field2D] for a
    [Field2D] operand (called as [DDX(f)]) and [CELL_LOC → Field3D] for a
    [Field3D] operand (called as [DDX(f, outloc)]).
    [Upwind A B C]: [VDDX(v, f)] and friends.
    [Flux A R]: [FDDX(v, f)] on [Field2D], [FDDX(v, f, method, outloc)] on
    [Field3D]. *)

Class Derivs (A R : Type) := { DDX : A → R; DDY : A → R; DDZ : A → R }.
Class Upwind (A B C : Type) :=
  { VDDX : A → B → C; VDDY : A → B → C; VDDZ : A → B → C }.
Class Flux (A R : Type) :=
  { FDDX : A → A → R; FDDY : A → A → R; FDDZ : A → A → R }.
#[global] Hint Mode Derivs ! - : typeclass_instances.
#[global] Hint Mode Upwind ! ! - : typeclass_instances.
#[global] Hint Mode Flux ! - : typeclass_instances.

(** ** vector2d.hxx / vector3d.hxx: three components and the covariant flag *)

Record Vector (F : Type) := mkVector
  { x : F; y : F; z : F; covariant : bool }.
Arguments mkVector {F} _ _ _ _.
Arguments x {F} _.
Arguments y {F} _.
Arguments z {F} _.
Arguments covariant {F} _.

(** What a vector object holds after [toContravariant()] / [toCovariant()]
    has run on it (vector2d.cxx and vector3d.cxx are not part of the
    sources, so the two conversions are parameters). *)
Class Convert (F : Type) :=
  { contravariant_of : Vector F → Vector F;
    covariant_of : Vector F → Vector F }.

(** ** coordinates.hxx: the members of [Coordinates] that vecops.cxx reads *)

Record Coordinates (Field2D : Type) := mkCoordinates
  { J : Field2D; Bxy : Field2D;
    g_12 : Field2D; g_23 : Field2D;
    ShiftTorsion : Field2D;
    G1_11 : Field2D; G1_22 : Field2D; G1_33 : Field2D;
    G1_12 : Field2D; G1_13 : Field2D;
    G2_11 : Field2D; G2_22 : Field2D; G2_33 : Field2D;
    G2_12 : Field2D; G2_23 : Field2D;
    G3_11 : Field2D; G3_22 : Field2D; G3_33 : Field2D;
    G3_13 : Field2D; G3_23 : Field2D }.
Arguments J {_} _.
Arguments Bxy {_} _.
Arguments g_12 {_} _.
Arguments g_23 {_} _.
Arguments ShiftTorsion {_} _.
Arguments G1_11 {_} _.
Arguments G1_22 {_} _.
Arguments G1_33 {_} _.
Arguments G1_12 {_} _.
Arguments G1_13 {_} _.
Arguments G2_11 {_} _.
Arguments G2_22 {_} _.
Arguments G2_33 {_} _.
Arguments G2_12 {_} _.
Arguments G2_23 {_} _.
Arguments G3_11 {_} _.
Arguments G3_22 {_} _.
Arguments G3_33 {_} _.
Arguments G3_13 {_} _.
Arguments G3_23 {_} _.

(** ** The store of field and vector objects *)

Inductive object (Field2D Field3D : Type) :=
  | OField2D (f : Field2D)
  | OField3D (f : Field3D)
  | OVector2D (v : Vector Field2D)
  | OVector3D (v : Vector Field3D).
Arguments OField2D {_ _} _.
Arguments OField3D {_ _} _.
Arguments OVector2D {_ _} _.
Arguments OVector3D {_ _} _.

(** A reference is an index into the store; objects are allocated at its
    end and a function's locals are dropped when it returns. *)
Definition ref := nat.

Definition asField2D {F2 F3} (o : object F2 F3) : option F2 :=
  match o with OField2D f => Some f | _ => None end.
Definition asField3D {F2 F3} (o : object F2 F3) : option F3 :=
  match o with OField3D f => Some f | _ => None end.
Definition asVector2D {F2 F3} (o : object F2 F3) : option (Vector F2) :=
  match o with OVector2D v => Some v | _ => None end.
Definition asVector3D {F2 F3} (o : object F2 F3) : option (Vector F3) :=
  match o with OVector3D v => Some v | _ => None end.

(** State-and-failure monad: a program fails only when a reference does not
    hold an object of the type it is declared with. *)
Definition M (S A : Type) : Type := S → option (A * S).

#[global] Instance M_ret {S} : MRet (M S) := λ A a σ, Some (a, σ).
#[global] Instance M_bind {S} : MBind (M S) := λ A B k m σ,
  match m σ with
  | Some (a, σ') => k a σ'
  | None => None
  end.

(** ** field3d.hxx, bout_types.hxx: what else vecops.cxx uses

    [Field3D::getLocation()]; the [Field3D(const Field2D&)] constructor; a
    freshly constructed [Field3D] assigned a [BoutReal]; the literals [0.0]
    and [1.]; [DIFF_DEFAULT]. *)
Class FieldBase (BoutReal Field2D Field3D DIFF_METHOD : Type) :=
  { getLocation : Field3D → CELL_LOC;
    Field3D_of_Field2D : Field2D → Field3D;
    Field3D_of_BoutReal : BoutReal → Field3D;
    real_0 : BoutReal;
    real_1 : BoutReal;
    DIFF_DEFAULT : DIFF_METHOD }.

(** ** globals.hxx: what vecops.cxx reads through the global [mesh]

    [coordinates] is the object [mesh->coordinates()] points to (the accessor
    itself is [Mesh_hxx.coordinates] below), [ShiftXderivs] is
    [mesh->ShiftXderivs]. *)
Record Mesh (Field2D : Type) := mkMesh
  { coordinates : Coordinates Field2D;
    ShiftXderivs : bool }.
Arguments mkMesh {_} _ _.
Arguments coordinates {_} _.
Arguments ShiftXderivs {_} _.

(** ** Index notation for the operators

    The three logical axes, the components of a vector by axis, and the
    Christoffel symbols of [Coordinates] by index: [christoffel m k i j] is
    the stored field for Γ^k_ij (symmetric in [i], [j]); Γ^1_23, Γ^2_13 and
    Γ^3_12 are not members of [Coordinates]. *)

Inductive axis := Xdir | Ydir | Zdir.

Definition axes : list axis := [Xdir; Ydir; Zdir].

Definition next (i : axis) : axis :=
  match i with Xdir => Ydir | Ydir => Zdir | Zdir => Xdir end.

Definition component {F} (i : axis) (v : Vector F) : F :=
  match i with Xdir => x v | Ydir => y v | Zdir => z v end.

(** [DDX], [DDY] or [DDZ] by axis. *)
Definition DD_along {A R} `{Derivs A R} (d : axis) : A → R :=
  match d with Xdir => DDX | Ydir => DDY | Zdir => DDZ end.

Inductive index_pair := P11 | P22 | P33 | P12 | P13 | P23.

Definition lower_pair (i j : axis) : index_pair :=
  match i, j with
  | Xdir, Xdir => P11 | Ydir, Ydir => P22 | Zdir, Zdir => P33
  | Xdir, Ydir | Ydir, Xdir => P12
  | Xdir, Zdir | Zdir, Xdir => P13
  | Ydir, Zdir | Zdir, Ydir => P23
  end.

Definition christoffel {F2} (m : Coordinates F2) (k i j : axis) : option F2 :=
  match k, lower_pair i j with
  | Xdir, P11 => Some (G1_11 m) | Xdir, P22 => Some (G1_22 m)
  | Xdir, P33 => Some (G1_33 m) | Xdir, P12 => Some (G1_12 m)
  | Xdir, P13 => Some (G1_13 m) | Xdir, P23 => None
  | Ydir, P11 => Some (G2_11 m) | Ydir, P22 => Some (G2_22 m)
  | Ydir, P33 => Some (G2_33 m) | Ydir, P12 => Some (G2_12 m)
  | Ydir, P23 => Some (G2_23 m) | Ydir, P13 => None
  | Zdir, P11 => Some (G3_11 m) | Zdir, P22 => Some (G3_22 m)
  | Zdir, P33 => Some (G3_33 m) | Zdir, P13 => Some (G3_13 m)
  | Zdir, P23 => Some (G3_23 m) | Zdir, P12 => None
  end.

(** ** The advective derivative of a vector, as the spec words it

    [V_dot_Grad_value m vcn a]: each component is the upwind derivative of
    that component of [a] along the contravariant velocity [vcn]; for a
    covariant [a] the terms vcn^j Γ^k_ij a_k (the component index [i] is a
    lower index of the symbol) are subtracted, for a contravariant [a] the
    terms vcn^j Γ^i_jk a^k (the component index is the upper index) are
    added.  Sums run over the stored symbols, left to right.  The four C++
    overloads are the instances at [Field2D] / [Field3D]. *)

Section V_dot_Grad_spec.
Context {F2 Fv Fa Fg Fr : Type}.
Context {vdd : Upwind Fv Fa Fr}
        {mulGa : OpMul F2 Fa Fg} {addG : OpAdd Fg Fg Fg}
        {mulvG : OpMul Fv Fg Fr}
        {addR : OpAdd Fr Fr Fr} {subR : OpSub Fr Fr Fr}.

Local Open Scope field_scope.

Definition advect (vcn : Vector Fv) (f : Fa) : Fr :=
  VDDX (x vcn) f + VDDY (y vcn) f + VDDZ (z vcn) f.

Definition sum_present (terms : list (option Fg)) : option Fg :=
  foldl (λ acc t, match acc, t with
                  | Some s, Some t => Some (s + t)
                  | None, t => t
                  | acc, None => acc
                  end) None terms.

(** Σ_k Γ^k_ij a_k *)
Definition contract_lower (m : Coordinates F2) (a : Vector Fa) (i j : axis)
    : option Fg :=
  sum_present
    ((λ k, g ← christoffel m k i j; Some (g * component k a)) <$> axes).

(** Σ_k Γ^i_jk a^k *)
Definition contract_upper (m : Coordinates F2) (a : Vector Fa) (i j : axis)
    : option Fg :=
  sum_present
    ((λ k, g ← christoffel m i j k; Some (g * component k a)) <$> axes).

(** [start op vcn^x t_x op vcn^y t_y op vcn^z t_z] *)
Definition correct (op : Fr → Fr → Fr) (vcn : Vector Fv) (start : Fr)
    (t : axis → option Fg) : Fr :=
  foldl (λ acc j, match t j with
                  | Some tj => op acc (component j vcn * tj)
                  | None => acc
                  end) start axes.

Definition V_dot_Grad_component (m : Coordinates F2) (vcn : Vector Fv)
    (a : Vector Fa) (i : axis) : Fr :=
  if covariant a
  then correct op_sub vcn (advect vcn (component i a)) (contract_lower m a i)
  else correct op_add vcn (advect vcn (component i a)) (contract_upper m a i).

Definition V_dot_Grad_value (m : Coordinates F2) (vcn : Vector Fv)
    (a : Vector Fa) : Vector Fr :=
  mkVector (V_dot_Grad_component m vcn a Xdir)
           (V_dot_Grad_component m vcn a Ydir)
           (V_dot_Grad_component m vcn a Zdir)
           (covariant a).
End V_dot_Grad_spec.

(** ** A symbolic field library

    Modelled from the spec: the field containers (field2d.hxx, field3d.hxx),
    the vector conversions and the differencing engine (derivs.hxx) are not
    part of the sources.  Following the spec's data model, a field is an
    opaque array with a location tag: here the array is the expression that
    computes it, a [Field2D] has no tag, and a [Field3D] carries its
    [CELL_LOC].  A derivative "returns the derivative estimate at a requested
    output cell location" (spec 4.3), the operand's own one when
    [CELL_DEFAULT] is asked for; arithmetic keeps the location of its (left)
    [Field3D] operand; a vector conversion does nothing to a vector that
    already is of the kind asked for. *)

Module Symbolic.

Inductive method := M_DEFAULT | M_U1 | M_C2 | M_W3.

Inductive expr :=
  | Var (name : string)
  | Real (r : Z)
  | Add (a b : expr)
  | Sub (a b : expr)
  | Mul (a b : expr)
  | Div (a b : expr)
  | DD (d : axis) (f : expr) (outloc : option CELL_LOC)
  | VDD (d : axis) (v f : expr)
  | FDD (d : axis) (v f : expr) (how : option (method * CELL_LOC))
  | Raise (i : axis) (vx vy vz : expr)
  | Lower (i : axis) (vx vy vz : expr).

Record field3d := mkField3D { location : CELL_LOC; data : expr }.

(** Modelled from the spec: the location of a derivative is the output
    location asked for, the operand's own one for [CELL_DEFAULT]. *)
Definition at_location (loc outloc : CELL_LOC) : CELL_LOC :=
  match outloc with CELL_DEFAULT => loc | _ => outloc end.

#[global] Instance add22 : OpAdd expr expr expr := Add.
#[global] Instance sub22 : OpSub expr expr expr := Sub.
#[global] Instance mul22 : OpMul expr expr expr := Mul.
#[global] Instance div22 : OpDiv expr expr expr := Div.
#[global] Instance divR2 : OpDiv Z expr expr := λ r f, Div (Real r) f.
#[global] Instance add33 : OpAdd field3d field3d field3d :=
  λ a b, mkField3D (location a) (Add (data a) (data b)).
#[global] Instance sub33 : OpSub field3d field3d field3d :=
  λ a b, mkField3D (location a) (Sub (data a) (data b)).
#[global] Instance mul33 : OpMul field3d field3d field3d :=
  λ a b, mkField3D (location a) (Mul (data a) (data b)).
#[global] Instance mul23 : OpMul expr field3d field3d :=
  λ a b, mkField3D (location b) (Mul a (data b)).
#[global] Instance mul32 : OpMul field3d expr field3d :=
  λ a b, mkField3D (location a) (Mul (data a) b).
#[global] Instance div32 : OpDiv field3d expr field3d :=
  λ a b, mkField3D (location a) (Div (data a) b).

(** Modelled from the spec: [DDX], [DDY], [DDZ] and the flux derivatives
    (derivs.hxx), as the expression they stand for. *)
Definition dd2 (d : axis) (f : expr) : expr := DD d f None.
Definition dd3 (d : axis) (f : field3d) (outloc : CELL_LOC) : field3d :=
  mkField3D (at_location (location f) outloc) (DD d (data f) (Some outloc)).
Definition fdd2 (d : axis) (v f : expr) : expr := FDD d v f None.
Definition fdd3 (d : axis) (v f : field3d) (m : method) (outloc : CELL_LOC)
    : field3d :=
  mkField3D (at_location (location f) outloc)
            (FDD d (data v) (data f) (Some (m, outloc))).

#[global] Instance ddF2 : Derivs expr expr :=
  {| DDX := dd2 Xdir; DDY := dd2 Ydir; DDZ := dd2 Zdir |}.
#[global] Instance ddF3 : Derivs field3d (CELL_LOC → field3d) :=
  {| DDX := dd3 Xdir; DDY := dd3 Ydir; DDZ := dd3 Zdir |}.
#[global] Instance fddF2 : Flux expr expr :=
  {| FDDX := fdd2 Xdir; FDDY := fdd2 Ydir; FDDZ := fdd2 Zdir |}.
#[global] Instance fddF3 : Flux field3d (method → CELL_LOC → field3d) :=
  {| FDDX := fdd3 Xdir; FDDY := fdd3 Ydir; FDDZ := fdd3 Zdir |}.
#[global] Instance vdd22 : Upwind expr expr expr :=
  {| VDDX := VDD Xdir; VDDY := VDD Ydir; VDDZ := VDD Zdir |}.
#[global] Instance vdd23 : Upwind expr field3d field3d :=
  {| VDDX v f := mkField3D (location f) (VDD Xdir v (data f));
     VDDY v f := mkField3D (location f) (VDD Ydir v (data f));
     VDDZ v f := mkField3D (location f) (VDD Zdir v (data f)) |}.
#[global] Instance vdd32 : Upwind field3d expr field3d :=
  {| VDDX v f := mkField3D (location v) (VDD Xdir (data v) f);
     VDDY v f := mkField3D (location v) (VDD Ydir (data v) f);
     VDDZ v f := mkField3D (location v) (VDD Zdir (data v) f) |}.
#[global] Instance vdd33 : Upwind field3d field3d field3d :=
  {| VDDX v f := mkField3D (location f) (VDD Xdir (data v) (data f));
     VDDY v f := mkField3D (location f) (VDD Ydir (data v) (data f));
     VDDZ v f := mkField3D (location f) (VDD Zdir (data v) (data f)) |}.

(** Modelled from the spec: [toCovariant()] and [toContravariant()]
    (vector2d.hxx, vector3d.hxx) leave a vector of the kind asked for as it
    is and otherwise lower or raise the index with the metric. *)
Definition convert2 (to_covariant : bool) (v : Vector expr) : Vector expr :=
  if decide (covariant v = to_covariant) then v
  else let c := if to_covariant then Lower else Raise in
       mkVector (c Xdir (x v) (y v) (z v)) (c Ydir (x v) (y v) (z v))
                (c Zdir (x v) (y v) (z v)) to_covariant.

Definition convert3 (to_covariant : bool) (v : Vector field3d)
    : Vector field3d :=
  if decide (covariant v = to_covariant) then v
  else let c i := (if to_covariant then Lower else Raise)
                    i (data (x v)) (data (y v)) (data (z v)) in
       mkVector (mkField3D (location (x v)) (c Xdir))
                (mkField3D (location (y v)) (c Ydir))
                (mkField3D (location (z v)) (c Zdir)) to_covariant.

#[global] Instance conv2 : Convert expr :=
  {| contravariant_of := convert2 false; covariant_of := convert2 true |}.
#[global] Instance conv3 : Convert field3d :=
  {| contravariant_of := convert3 false; covariant_of := convert3 true |}.

#[global] Instance base : FieldBase Z expr field3d method :=
  {| getLocation := location;
     Field3D_of_Field2D := mkField3D CELL_CENTRE;
     Field3D_of_BoutReal r := mkField3D CELL_CENTRE (Real r);
     real_0 := 0%Z;
     real_1 := 1%Z;
     DIFF_DEFAULT := M_DEFAULT |}.

(** *** Sample data: a metric, two meshes and a caller's store *)

Definition metric : Coordinates expr :=
  {| J := Var "J"; Bxy := Var "Bxy"; g_12 := Var "g_12"; g_23 := Var "g_23";
     ShiftTorsion := Var "ShiftTorsion";
     G1_11 := Var "G1_11"; G1_22 := Var "G1_22"; G1_33 := Var "G1_33";
     G1_12 := Var "G1_12"; G1_13 := Var "G1_13";
     G2_11 := Var "G2_11"; G2_22 := Var "G2_22"; G2_33 := Var "G2_33";
     G2_12 := Var "G2_12"; G2_23 := Var "G2_23";
     G3_11 := Var "G3_11"; G3_22 := Var "G3_22"; G3_33 := Var "G3_33";
     G3_13 := Var "G3_13"; G3_23 := Var "G3_23" |}.

Definition mesh_plain : Mesh expr := mkMesh metric false.
Definition mesh_shifted : Mesh expr := mkMesh metric true.

(** A scalar [h] in 2D, a scalar [f] stored at the X-low face, a
    contravariant 2D vector [u], a contravariant 3D vector [v] stored at the
    X-low face, and a covariant 3D vector [a] at cell centre. *)
Definition h : expr := Var "h".
Definition f : field3d := mkField3D CELL_XLOW (Var "f").
Definition u : Vector expr := mkVector (Var "ux") (Var "uy") (Var "uz") false.
Definition v : Vector field3d :=
  mkVector (mkField3D CELL_XLOW (Var "vx")) (mkField3D CELL_XLOW (Var "vy"))
           (mkField3D CELL_XLOW (Var "vz")) false.
Definition a : Vector field3d :=
  mkVector (mkField3D CELL_CENTRE (Var "ax")) (mkField3D CELL_CENTRE (Var "ay"))
           (mkField3D CELL_CENTRE (Var "az")) true.

Definition store : list (object expr field3d) :=
  [OField2D h; OField3D f; OVector2D u; OVector3D v; OVector3D a].
Definition ref_h : ref := 0.
Definition ref_f : ref := 1.
Definition ref_u : ref := 2.
Definition ref_v : ref := 3.
Definition ref_a : ref := 4.

End Symbolic.

(** ** include/bout/mesh.hxx *)

Module Mesh_hxx.

(** A pointer into the free store: 0 is [nullptr], [S i] is the address of
    the [i]-th object that was allocated. *)
Definition pointer := nat.
Definition nullptr : pointer := 0.

(** griddata.hxx: what a [GridDataSource] holds, by name and type. *)
Record GridDataSource (BoutReal Field2D Field3D : Type) := mkSource
  { ints : gmap string Z;
    reals : gmap string BoutReal;
    fields2D : gmap string Field2D;
    fields3D : gmap string Field3D }.
Arguments mkSource {_ _ _} _ _ _ _.
Arguments ints {_ _ _} _.
Arguments reals {_ _ _} _.
Arguments fields2D {_ _ _} _.
Arguments fields3D {_ _ _} _.

(** The members of [Mesh] behind [get] and [coordinates()]: [source]
    ([None] is a null source, as the bare constructor leaves it) and
    [coords]. *)
Record Mesh (BoutReal Field2D Field3D : Type) := mkMesh
  { source : option (GridDataSource BoutReal Field2D Field3D);
    coords : pointer }.
Arguments mkMesh {_ _ _} _ _.
Arguments source {_ _ _} _.
Arguments coords {_ _ _} _.

(** A mesh together with the [Coordinates] objects allocated so far. *)
Record World (BoutReal Field2D Field3D Coordinates : Type) := mkWorld
  { this : Mesh BoutReal Field2D Field3D;
    heap : list Coordinates }.
Arguments mkWorld {_ _ _ _} _ _.
Arguments this {_ _ _ _} _.
Arguments heap {_ _ _ _} _.

Section mesh.
Context {BoutReal Field2D Field3D Coordinates : Type}.

Abbreviation Mesh' := (Mesh BoutReal Field2D Field3D).
Abbreviation World' := (World BoutReal Field2D Field3D Coordinates).

(** The constructor of [Coordinates] from a mesh; a field filled with one value;
    the literal [0.0]. *)
Variable default_coordinates : Mesh' → Coordinates.
Variable Field2D_of_BoutReal : BoutReal → Field2D.
Variable Field3D_of_BoutReal : BoutReal → Field3D.
Variable real_0 : BoutReal.

(** *** The coordinate system *)

(** Modelled from the spec: [Coordinates *createDefaultCoordinates()] is
    only declared in mesh.hxx ("Allocates a default Coordinates object"), its
    body is in mesh.cxx.  It allocates one new object and returns its
    address. *)
Definition createDefaultCoordinates (w : World') : pointer * World' :=
  (S (length (heap w)),
   mkWorld (this w) (heap w ++ [default_coordinates (this w)])).

(** [Coordinates *coordinates()] *)
Definition coordinates (w : World') : pointer * World' :=
  if decide (coords (this w) ≠ nullptr) then
    (coords (this w), w)
  else
    let '(p, w) := createDefaultCoordinates w in
    let w := mkWorld (mkMesh (source (this w)) p) (heap w) in
    (coords (this w), w).

(** [n] calls of [coordinates()] in a row: the pointers they return and the
    final state. *)
Fixpoint coordinates_calls (n : nat) (w : World') : list pointer * World' :=
  match n with
  | 0 => ([], w)
  | S n => let '(p, w) := coordinates w in
           let '(ps, w) := coordinates_calls n w in
           (p :: ps, w)
  end.

(** What a pointer refers to: nothing for [nullptr] and for an address that
    was never allocated. *)
Definition deref (w : World') (p : pointer) : option Coordinates :=
  match p with
  | 0 => None
  | S i => heap w !! i
  end.

(** [coords] is null or refers to an allocated object. *)
Definition coords_valid (w : World') : Prop :=
  coords (this w) = nullptr ∨ is_Some (deref w (coords (this w))).

(** *** Get routines to request data from the mesh file

    The status is the returned [int]; the second component is what the
    output parameter holds afterwards. *)

(** Modelled from the spec: [int get(int &ival, const string &name)] is only
    declared in mesh.hxx; "returns zero if successful, non-zero on
    failure". *)
Definition get_int (m : Mesh') (ival : Z) (name : string) : Z * Z :=
  match source m ≫= λ s, ints s !! name with
  | Some n => (0, n)
  | None => (1, ival)
  end%Z.

(** Modelled from the spec: [int get(BoutReal &rval, const string &name)] is
    only declared in mesh.hxx; "returns zero if successful, non-zero on
    failure". *)
Definition get_BoutReal (m : Mesh') (rval : BoutReal) (name : string)
    : Z * BoutReal :=
  match source m ≫= λ s, reals s !! name with
  | Some r => (0, r)
  | None => (1, rval)
  end%Z.

(** Modelled from the spec: [int get(Field2D &var, const string &name,
    BoutReal def=0.0)] is only declared in mesh.hxx; [var] "will be set to
    the value", [def] is "the default value if not found"; "returns zero if
    successful, non-zero on failure". *)
Definition get_Field2D (m : Mesh') (var : Field2D) (name : string)
    (def : BoutReal) : Z * Field2D :=
  match source m ≫= λ s, fields2D s !! name with
  | Some f => (0, f)
  | None => (1, Field2D_of_BoutReal def)
  end%Z.

(** Modelled from the spec: [int get(Field3D &var, const string &name,
    BoutReal def=0.0, bool communicate=true)] is only declared in mesh.hxx;
    same contract as for [Field2D].  Filling the guard cells does not change
    the status. *)
Definition get_Field3D (m : Mesh') (var : Field3D) (name : string)
    (def : BoutReal) (communicate : bool) : Z * Field3D :=
  match source m ≫= λ s, fields3D s !! name with
  | Some f => (0, f)
  | None => (1, Field3D_of_BoutReal def)
  end%Z.

(** Modelled from the spec: [int get(Vector2D &var, const string &name)] is
    only declared in mesh.hxx.  "If var is covariant then this gets three
    Field2D variables with _x, _y, _z appended to name.  If var is
    contravariant, then x, y, z are appended to name.  By default all fields
    revert to zero.  Returns zero always." *)
Definition get_Vector2D (m : Mesh') (var : Vector Field2D) (name : string)
    : Z * Vector Field2D :=
  if covariant var then
    let var_x := (get_Field2D m (x var) (name +:+ "_x") real_0).2 in
    let var_y := (get_Field2D m (y var) (name +:+ "_y") real_0).2 in
    let var_z := (get_Field2D m (z var) (name +:+ "_z") real_0).2 in
    (0%Z, mkVector var_x var_y var_z (covariant var))
  else
    let var_x := (get_Field2D m (x var) (name +:+ "x") real_0).2 in
    let var_y := (get_Field2D m (y var) (name +:+ "y") real_0).2 in
    let var_z := (get_Field2D m (z var) (name +:+ "z") real_0).2 in
    (0%Z, mkVector var_x var_y var_z (covariant var)).

(** Modelled from the spec: [int get(Vector3D &var, const string &name)] is
    only declared in mesh.hxx; as for [Vector2D], with three [Field3D]
    variables. *)
Definition get_Vector3D (m : Mesh') (var : Vector Field3D) (name : string)
    : Z * Vector Field3D :=
  if covariant var then
    let var_x := (get_Field3D m (x var) (name +:+ "_x") real_0 true).2 in
    let var_y := (get_Field3D m (y var) (name +:+ "_y") real_0 true).2 in
    let var_z := (get_Field3D m (z var) (name +:+ "_z") real_0 true).2 in
    (0%Z, mkVector var_x var_y var_z (covariant var))
  else
    let var_x := (get_Field3D m (x var) (name +:+ "x") real_0 true).2 in
    let var_y := (get_Field3D m (y var) (name +:+ "y") real_0 true).2 in
    let var_z := (get_Field3D m (z var) (name +:+ "z") real_0 true).2 in
    (0%Z, mkVector var_x var_y var_z (covariant var)).

End mesh.

(** *** Sample data: a source that holds nothing *)

Definition no_data : GridDataSource Z Symbolic.expr Symbolic.field3d :=
  mkSource ∅ ∅ ∅ ∅.
Definition bare_mesh : Mesh Z Symbolic.expr Symbolic.field3d :=
  mkMesh None nullptr.
Definition empty_mesh : Mesh Z Symbolic.expr Symbolic.field3d :=
  mkMesh (Some no_data) nullptr.

End Mesh_hxx.

(** ** src/field/vecops.cxx *)

Section vecops.
Context {BoutReal Field2D Field3D DIFF_METHOD : Type}.

Abbreviation Vector2D := (Vector Field2D).
Abbreviation Vector3D := (Vector Field3D).
Abbreviation Store := (list (object Field2D Field3D)).
Abbreviation Op := (M Store).

(** field2d.hxx, field3d.hxx: the operator overloads vecops.cxx uses. *)
Context {add22 : OpAdd Field2D Field2D Field2D}
        {add33 : OpAdd Field3D Field3D Field3D}
        {sub22 : OpSub Field2D Field2D Field2D}
        {sub33 : OpSub Field3D Field3D Field3D}
        {mul22 : OpMul Field2D Field2D Field2D}
        {mul23 : OpMul Field2D Field3D Field3D}
        {mul32 : OpMul Field3D Field2D Field3D}
        {mul33 : OpMul Field3D Field3D Field3D}
        {div22 : OpDiv Field2D Field2D Field2D}
        {div32 : OpDiv Field3D Field2D Field3D}
        {divR2 : OpDiv BoutReal Field2D Field2D}.

(** derivs.hxx *)
Context {ddF2 : Derivs Field2D Field2D}
        {ddF3 : Derivs Field3D (CELL_LOC → Field3D)}
        {vdd22 : Upwind Field2D Field2D Field2D}
        {vdd23 : Upwind Field2D Field3D Field3D}
        {vdd32 : Upwind Field3D Field2D Field3D}
        {vdd33 : Upwind Field3D Field3D Field3D}
        {fddF2 : Flux Field2D Field2D}
        {fddF3 : Flux Field3D (DIFF_METHOD → CELL_LOC → Field3D)}.

(** vector2d.hxx, vector3d.hxx *)
Context {conv2 : Convert Field2D} {conv3 : Convert Field3D}.

Context {base : FieldBase BoutReal Field2D Field3D DIFF_METHOD}.

(** The global [mesh]. *)
Variable mesh : Mesh Field2D.

Local Open Scope field_scope.

(** *** Store access *)

Definition read {T} (as_T : object Field2D Field3D → option T) (r : ref)
    : Op T :=
  λ σ, o ← σ !! r; t ← as_T o; Some (t, σ).

(** [T local = value;] *)
Definition new (o : object Field2D Field3D) : Op ref :=
  λ σ, Some (length σ, σ ++ [o]).

(** A call: the callee's locals are gone when it returns. *)
Definition call {A} (body : Op A) : Op A :=
  λ σ, '(a, σ') ← body σ; Some (a, take (length σ) σ').

(** A method of [Vector2D] / [Vector3D] that updates the object it is called
    on. *)
Definition method2D (g : Vector2D → Vector2D) (this : ref) : Op unit :=
  λ σ, o ← σ !! this; v ← asVector2D o;
       Some (tt, <[this := OVector2D (g v)]> σ).
Definition method3D (g : Vector3D → Vector3D) (this : ref) : Op unit :=
  λ σ, o ← σ !! this; v ← asVector3D o;
       Some (tt, <[this := OVector3D (g v)]> σ).

(** [Vector2D::toContravariant()], [Vector2D::toCovariant()] and the
    [Vector3D] ones. *)
Definition toContravariant2D : ref → Op unit := method2D contravariant_of.
Definition toCovariant2D : ref → Op unit := method2D covariant_of.
Definition toContravariant3D : ref → Op unit := method3D contravariant_of.
Definition toCovariant3D : ref → Op unit := method3D covariant_of.

(** [Vector2D local = v;] and [Vector3D local = v;]: the local is a new
    object holding a copy of what [v] refers to. *)
Definition copy_Vector2D (v : ref) : Op ref :=
  val ← read asVector2D v; new (OVector2D val).
Definition copy_Vector3D (v : ref) : Op ref :=
  val ← read asVector3D v; new (OVector3D val).

(** [if (outloc == CELL_DEFAULT) outloc = loc;] *)
Definition default_to (loc outloc : CELL_LOC) : CELL_LOC :=
  if decide (outloc = CELL_DEFAULT) then loc else outloc.

(** *** Gradient operators *)

(** [const Vector2D Grad(const Field2D &f, CELL_LOC outloc)] *)
Definition Grad_Field2D (f : ref) (outloc : CELL_LOC) : Op Vector2D :=
  call (
    f ← read asField2D f;
    let result_x := DDX f in
    let result_y := DDY f in
    let result_z := DDZ f in
    let result_covariant := true in
    mret (mkVector result_x result_y result_z result_covariant)).

(** [const Vector3D Grad(const Field3D &f, CELL_LOC outloc_x,
    CELL_LOC outloc_y, CELL_LOC outloc_z)] *)
Definition Grad_Field3D_xyz (f : ref) (outloc_x outloc_y outloc_z : CELL_LOC)
    : Op Vector3D :=
  call (
    f ← read asField3D f;
    let outloc_x := default_to (getLocation f) outloc_x in
    let outloc_y := default_to (getLocation f) outloc_y in
    let outloc_z := default_to (getLocation f) outloc_z in
    let result_x := DDX f outloc_x in
    let result_y := DDY f outloc_y in
    let result_z := DDZ f outloc_z in
    let result_covariant := true in
    mret (mkVector result_x result_y result_z result_covariant)).

(** [const Vector3D Grad(const Field3D &f, CELL_LOC outloc)] *)
Definition Grad_Field3D (f : ref) (outloc : CELL_LOC) : Op Vector3D :=
  call (
    if decide (outloc = CELL_VSHIFT)
    then Grad_Field3D_xyz f CELL_XLOW CELL_YLOW CELL_ZLOW
    else Grad_Field3D_xyz f outloc outloc outloc).

(** [const Vector3D Grad_perp(const Field3D &f, CELL_LOC outloc_x,
    CELL_LOC outloc_y, CELL_LOC outloc_z)] *)
Definition Grad_perp (f : ref) (outloc_x outloc_y outloc_z : CELL_LOC)
    : Op Vector3D :=
  call (
    let metric := coordinates mesh in
    f ← read asField3D f;
    let outloc_x := default_to (getLocation f) outloc_x in
    let outloc_z := default_to (getLocation f) outloc_z in
    let parcoef := Field3D_of_Field2D (real_1 / (J metric * Bxy metric)) in
    let parcoef := parcoef * parcoef in
    let result_x :=
      DDX f outloc_x - parcoef * g_12 metric * DDY f outloc_x in
    let result_y := Field3D_of_BoutReal real_0 in
    let result_z :=
      DDZ f outloc_z - parcoef * g_23 metric * DDY f outloc_z in
    let result_covariant := true in
    mret (mkVector result_x result_y result_z result_covariant)).

(** *** Divergence operators *)

(** [const Field2D Div(const Vector2D &v, CELL_LOC outloc)] *)
Definition Div_Vector2D (v : ref) (outloc : CELL_LOC) : Op Field2D :=
  call (
    let metric := coordinates mesh in
    vcn ← copy_Vector2D v;
    toContravariant2D vcn;;
    vcn ← read asVector2D vcn;
    let result := DDX (J metric * x vcn) in
    let result := result + DDY (J metric * y vcn) in
    let result := result + DDZ (J metric * z vcn) in
    let result := result / J metric in
    mret result).

(** [const Field3D Div(const Vector3D &v, CELL_LOC outloc)] *)
Definition Div_Vector3D (v : ref) (outloc : CELL_LOC) : Op Field3D :=
  call (
    let metric := coordinates mesh in
    let outloc := default_to CELL_CENTRE outloc in
    vcn ← copy_Vector3D v;
    toContravariant3D vcn;;
    vcn ← read asVector3D vcn;
    let result := DDX (J metric * x vcn) outloc in
    let result := result + DDY (J metric * y vcn) outloc in
    let result := result + DDZ (J metric * z vcn) outloc in
    let result := result / J metric in
    mret result).

(** *** Divergence operators for flux methods *)

(** [const Field2D Div(const Vector2D &v, const Field2D &f)] *)
Definition Div_Vector2D_Field2D (v f : ref) : Op Field2D :=
  call (
    let metric := coordinates mesh in
    vcn ← copy_Vector2D v;
    toContravariant2D vcn;;
    vcn ← read asVector2D vcn;
    f ← read asField2D f;
    let result := FDDX (J metric * x vcn) f in
    let result := result + FDDY (J metric * y vcn) f in
    let result := result + FDDZ (J metric * z vcn) f in
    let result := result / J metric in
    mret result).

(** [const Field3D Div(const Vector3D &v, const Field3D &f,
    DIFF_METHOD method, CELL_LOC outloc)] *)
Definition Div_Vector3D_Field3D_method_outloc
    (v f : ref) (method : DIFF_METHOD) (outloc : CELL_LOC) : Op Field3D :=
  call (
    let metric := coordinates mesh in
    let outloc := default_to CELL_CENTRE outloc in
    vcn ← copy_Vector3D v;
    toContravariant3D vcn;;
    vcn ← read asVector3D vcn;
    f ← read asField3D f;
    let result := FDDX (J metric * x vcn) f method outloc in
    let result := result + FDDY (J metric * y vcn) f method outloc in
    let result := result + FDDZ (J metric * z vcn) f method outloc in
    let result := result / J metric in
    mret result).

(** [const Field3D Div(const Vector3D &v, const Field3D &f,
    CELL_LOC outloc, DIFF_METHOD method)] *)
Definition Div_Vector3D_Field3D_outloc_method
    (v f : ref) (outloc : CELL_LOC) (method : DIFF_METHOD) : Op Field3D :=
  call (Div_Vector3D_Field3D_method_outloc v f method outloc).

(** [const Field3D Div(const Vector3D &v, const Field3D &f)] *)
Definition Div_Vector3D_Field3D (v f : ref) : Op Field3D :=
  call (Div_Vector3D_Field3D_method_outloc v f DIFF_DEFAULT CELL_DEFAULT).

(** *** Curl operators *)

(** [const Vector2D Curl(const Vector2D &v, CELL_LOC outloc)] *)
Definition Curl_Vector2D (v : ref) (outloc : CELL_LOC) : Op Vector2D :=
  call (
    let metric := coordinates mesh in
    vco ← copy_Vector2D v;
    toCovariant2D vco;;
    vco ← read asVector2D vco;
    let result_x := (DDY (z vco) - DDZ (y vco)) / J metric in
    let result_y := (DDZ (x vco) - DDX (z vco)) / J metric in
    let result_z := (DDX (y vco) - DDY (x vco)) / J metric in
    let result_z :=
      if ShiftXderivs mesh
      then result_z - ShiftTorsion metric * z vco / J metric
      else result_z in
    let result_covariant := false in
    mret (mkVector result_x result_y result_z result_covariant)).

(** [const Vector3D Curl(const Vector3D &v, CELL_LOC outloc_x,
    CELL_LOC outloc_y, CELL_LOC outloc_z)] *)
Definition Curl_Vector3D_xyz (v : ref) (outloc_x outloc_y outloc_z : CELL_LOC)
    : Op Vector3D :=
  call (
    let metric := coordinates mesh in
    vco ← copy_Vector3D v;
    toCovariant3D vco;;
    vco ← read asVector3D vco;
    let result_x :=
      (DDY (z vco) outloc_x - DDZ (y vco) outloc_x) / J metric in
    let result_y :=
      (DDZ (x vco) outloc_y - DDX (z vco) outloc_y) / J metric in
    let result_z :=
      (DDX (y vco) outloc_z - DDY (x vco) outloc_z) / J metric in
    let result_z :=
      if ShiftXderivs mesh
      then result_z - ShiftTorsion metric * z vco / J metric
      else result_z in
    let result_covariant := false in
    mret (mkVector result_x result_y result_z result_covariant)).

(** [const Vector3D Curl(const Vector3D &v, CELL_LOC outloc)] *)
Definition Curl_Vector3D (v : ref) (outloc : CELL_LOC) : Op Vector3D :=
  call (
    if decide (outloc = CELL_VSHIFT)
    then Curl_Vector3D_xyz v CELL_XLOW CELL_YLOW CELL_ZLOW
    else Curl_Vector3D_xyz v outloc outloc outloc).

(** *** Upwinding operators *)

(** [const Field2D V_dot_Grad(const Vector2D &v, const Field2D &f)] *)
Definition V_dot_Grad_Vector2D_Field2D (v f : ref) : Op Field2D :=
  call (
    vcn ← copy_Vector2D v;
    toContravariant2D vcn;;
    vcn ← read asVector2D vcn;
    f ← read asField2D f;
    let result := VDDX (x vcn) f + VDDY (y vcn) f + VDDZ (z vcn) f in
    mret result).

(** [const Field3D V_dot_Grad(const Vector2D &v, const Field3D &f)] *)
Definition V_dot_Grad_Vector2D_Field3D (v f : ref) : Op Field3D :=
  call (
    vcn ← copy_Vector2D v;
    toContravariant2D vcn;;
    vcn ← read asVector2D vcn;
    f ← read asField3D f;
    let result := VDDX (x vcn) f + VDDY (y vcn) f + VDDZ (z vcn) f in
    mret result).

(** [const Field3D V_dot_Grad(const Vector3D &v, const Field2D &f)] *)
Definition V_dot_Grad_Vector3D_Field2D (v f : ref) : Op Field3D :=
  call (
    vcn ← copy_Vector3D v;
    toContravariant3D vcn;;
    vcn ← read asVector3D vcn;
    f ← read asField2D f;
    let result := VDDX (x vcn) f + VDDY (y vcn) f + VDDZ (z vcn) f in
    mret result).

(** [const Field3D V_dot_Grad(const Vector3D &v, const Field3D &f)] *)
Definition V_dot_Grad_Vector3D_Field3D (v f : ref) : Op Field3D :=
  call (
    vcn ← copy_Vector3D v;
    toContravariant3D vcn;;
    vcn ← read asVector3D vcn;
    f ← read asField3D f;
    let result := VDDX (x vcn) f + VDDY (y vcn) f + VDDZ (z vcn) f in
    mret result).

(** [const Vector2D V_dot_Grad(const Vector2D &v, const Vector2D &a)] *)
Definition V_dot_Grad_Vector2D_Vector2D (v a : ref) : Op Vector2D :=
  call (
    let metric := coordinates mesh in
    vcn ← copy_Vector2D v;
    toContravariant2D vcn;;
    vcn ← read asVector2D vcn;
    a ← read asVector2D a;
    if covariant a then
      let result_x := VDDX (x vcn) (x a) + VDDY (y vcn) (x a) + VDDZ (z vcn) (x a) in
      let result_x := result_x - x vcn * (G1_11 metric * x a + G2_11 metric * y a + G3_11 metric * z a) in
      let result_x := result_x - y vcn * (G1_12 metric * x a + G2_12 metric * y a) in
      let result_x := result_x - z vcn * (G1_13 metric * x a + G3_13 metric * z a) in
      let result_y := VDDX (x vcn) (y a) + VDDY (y vcn) (y a) + VDDZ (z vcn) (y a) in
      let result_y := result_y - x vcn * (G1_12 metric * x a + G2_12 metric * y a) in
      let result_y := result_y - y vcn * (G1_22 metric * x a + G2_22 metric * y a + G3_22 metric * z a) in
      let result_y := result_y - z vcn * (G2_23 metric * y a + G3_23 metric * z a) in
      let result_z := VDDX (x vcn) (z a) + VDDY (y vcn) (z a) + VDDZ (z vcn) (z a) in
      let result_z := result_z - x vcn * (G1_13 metric * x a + G3_13 metric * z a) in
      let result_z := result_z - y vcn * (G2_23 metric * y a + G3_23 metric * z a) in
      let result_z := result_z - z vcn * (G1_33 metric * x a + G2_33 metric * y a + G3_33 metric * z a) in
      let result_covariant := true in
      mret (mkVector result_x result_y result_z result_covariant)
    else
      let result_x := VDDX (x vcn) (x a) + VDDY (y vcn) (x a) + VDDZ (z vcn) (x a) in
      let result_x := result_x + x vcn * (G1_11 metric * x a + G1_12 metric * y a + G1_13 metric * z a) in
      let result_x := result_x + y vcn * (G1_12 metric * x a + G1_22 metric * y a) in
      let result_x := result_x + z vcn * (G1_13 metric * x a + G1_33 metric * z a) in
      let result_y := VDDX (x vcn) (y a) + VDDY (y vcn) (y a) + VDDZ (z vcn) (y a) in
      let result_y := result_y + x vcn * (G2_11 metric * x a + G2_12 metric * y a) in
      let result_y := result_y + y vcn * (G2_12 metric * x a + G2_22 metric * y a + G2_23 metric * z a) in
      let result_y := result_y + z vcn * (G2_23 metric * y a + G2_33 metric * z a) in
      let result_z := VDDX (x vcn) (z a) + VDDY (y vcn) (z a) + VDDZ (z vcn) (z a) in
      let result_z := result_z + x vcn * (G3_11 metric * x a + G3_13 metric * z a) in
      let result_z := result_z + y vcn * (G3_22 metric * y a + G3_23 metric * z a) in
      let result_z := result_z + z vcn * (G3_13 metric * x a + G3_23 metric * y a + G3_33 metric * z a) in
      let result_covariant := false in
      mret (mkVector result_x result_y result_z result_covariant)).

(** [const Vector3D V_dot_Grad(const Vector2D &v, const Vector3D &a)] *)
Definition V_dot_Grad_Vector2D_Vector3D (v a : ref) : Op Vector3D :=
  call (
    let metric := coordinates mesh in
    vcn ← copy_Vector2D v;
    toContravariant2D vcn;;
    vcn ← read asVector2D vcn;
    a ← read asVector3D a;
    if covariant a then
      let result_x := VDDX (x vcn) (x a) + VDDY (y vcn) (x a) + VDDZ (z vcn) (x a) in
      let result_x := result_x - x vcn * (G1_11 metric * x a + G2_11 metric * y a + G3_11 metric * z a) in
      let result_x := result_x - y vcn * (G1_12 metric * x a + G2_12 metric * y a) in
      let result_x := result_x - z vcn * (G1_13 metric * x a + G3_13 metric * z a) in
      let result_y := VDDX (x vcn) (y a) + VDDY (y vcn) (y a) + VDDZ (z vcn) (y a) in
      let result_y := result_y - x vcn * (G1_12 metric * x a + G2_12 metric * y a) in
      let result_y := result_y - y vcn * (G1_22 metric * x a + G2_22 metric * y a + G3_22 metric * z a) in
      let result_y := result_y - z vcn * (G2_23 metric * y a + G3_23 metric * z a) in
      let result_z := VDDX (x vcn) (z a) + VDDY (y vcn) (z a) + VDDZ (z vcn) (z a) in
      let result_z := result_z - x vcn * (G1_13 metric * x a + G3_13 metric * z a) in
      let result_z := result_z - y vcn * (G2_23 metric * y a + G3_23 metric * z a) in
      let result_z := result_z - z vcn * (G1_33 metric * x a + G2_33 metric * y a + G3_33 metric * z a) in
      let result_covariant := true in
      mret (mkVector result_x result_y result_z result_covariant)
    else
      let result_x := VDDX (x vcn) (x a) + VDDY (y vcn) (x a) + VDDZ (z vcn) (x a) in
      let result_x := result_x + x vcn * (G1_11 metric * x a + G1_12 metric * y a + G1_13 metric * z a) in
      let result_x := result_x + y vcn * (G1_12 metric * x a + G1_22 metric * y a) in
      let result_x := result_x + z vcn * (G1_13 metric * x a + G1_33 metric * z a) in
      let result_y := VDDX (x vcn) (y a) + VDDY (y vcn) (y a) + VDDZ (z vcn) (y a) in
      let result_y := result_y + x vcn * (G2_11 metric * x a + G2_12 metric * y a) in
      let result_y := result_y + y vcn * (G2_12 metric * x a + G2_22 metric * y a + G2_23 metric * z a) in
      let result_y := result_y + z vcn * (G2_23 metric * y a + G2_33 metric * z a) in
      let result_z := VDDX (x vcn) (z a) + VDDY (y vcn) (z a) + VDDZ (z vcn) (z a) in
      let result_z := result_z + x vcn * (G3_11 metric * x a + G3_13 metric * z a) in
      let result_z := result_z + y vcn * (G3_22 metric * y a + G3_23 metric * z a) in
      let result_z := result_z + z vcn * (G3_13 metric * x a + G3_23 metric * y a + G3_33 metric * z a) in
      let result_covariant := false in
      mret (mkVector result_x result_y result_z result_covariant)).

(** [const Vector3D V_dot_Grad(const Vector3D &v, const Vector2D &a)] *)
Definition V_dot_Grad_Vector3D_Vector2D (v a : ref) : Op Vector3D :=
  call (
    let metric := coordinates mesh in
    vcn ← copy_Vector3D v;
    toContravariant3D vcn;;
    vcn ← read asVector3D vcn;
    a ← read asVector2D a;
    if covariant a then
      let result_x := VDDX (x vcn) (x a) + VDDY (y vcn) (x a) + VDDZ (z vcn) (x a) in
      let result_x := result_x - x vcn * (G1_11 metric * x a + G2_11 metric * y a + G3_11 metric * z a) in
      let result_x := result_x - y vcn * (G1_12 metric * x a + G2_12 metric * y a) in
      let result_x := result_x - z vcn * (G1_13 metric * x a + G3_13 metric * z a) in
      let result_y := VDDX (x vcn) (y a) + VDDY (y vcn) (y a) + VDDZ (z vcn) (y a) in
      let result_y := result_y - x vcn * (G1_12 metric * x a + G2_12 metric * y a) in
      let result_y := result_y - y vcn * (G1_22 metric * x a + G2_22 metric * y a + G3_22 metric * z a) in
      let result_y := result_y - z vcn * (G2_23 metric * y a + G3_23 metric * z a) in
      let result_z := VDDX (x vcn) (z a) + VDDY (y vcn) (z a) + VDDZ (z vcn) (z a) in
      let result_z := result_z - x vcn * (G1_13 metric * x a + G3_13 metric * z a) in
      let result_z := result_z - y vcn * (G2_23 metric * y a + G3_23 metric * z a) in
      let result_z := result_z - z vcn * (G1_33 metric * x a + G2_33 metric * y a + G3_33 metric * z a) in
      let result_covariant := true in
      mret (mkVector result_x result_y result_z result_covariant)
    else
      let result_x := VDDX (x vcn) (x a) + VDDY (y vcn) (x a) + VDDZ (z vcn) (x a) in
      let result_x := result_x + x vcn * (G1_11 metric * x a + G1_12 metric * y a + G1_13 metric * z a) in
      let result_x := result_x + y vcn * (G1_12 metric * x a + G1_22 metric * y a) in
      let result_x := result_x + z vcn * (G1_13 metric * x a + G1_33 metric * z a) in
      let result_y := VDDX (x vcn) (y a) + VDDY (y vcn) (y a) + VDDZ (z vcn) (y a) in
      let result_y := result_y + x vcn * (G2_11 metric * x a + G2_12 metric * y a) in
      let result_y := result_y + y vcn * (G2_12 metric * x a + G2_22 metric * y a + G2_23 metric * z a) in
      let result_y := result_y + z vcn * (G2_23 metric * y a + G2_33 metric * z a) in
      let result_z := VDDX (x vcn) (z a) + VDDY (y vcn) (z a) + VDDZ (z vcn) (z a) in
      let result_z := result_z + x vcn * (G3_11 metric * x a + G3_13 metric * z a) in
      let result_z := result_z + y vcn * (G3_22 metric * y a + G3_23 metric * z a) in
      let result_z := result_z + z vcn * (G3_13 metric * x a + G3_23 metric * y a + G3_33 metric * z a) in
      let result_covariant := false in
      mret (mkVector result_x result_y result_z result_covariant)).

(** [const Vector3D V_dot_Grad(const Vector3D &v, const Vector3D &a)] *)
Definition V_dot_Grad_Vector3D_Vector3D (v a : ref) : Op Vector3D :=
  call (
    let metric := coordinates mesh in
    vcn ← copy_Vector3D v;
    toContravariant3D vcn;;
    vcn ← read asVector3D vcn;
    a ← read asVector3D a;
    if covariant a then
      let result_x := VDDX (x vcn) (x a) + VDDY (y vcn) (x a) + VDDZ (z vcn) (x a) in
      let result_x := result_x - x vcn * (G1_11 metric * x a + G2_11 metric * y a + G3_11 metric * z a) in
      let result_x := result_x - y vcn * (G1_12 metric * x a + G2_12 metric * y a) in
      let result_x := result_x - z vcn * (G1_13 metric * x a + G3_13 metric * z a) in
      let result_y := VDDX (x vcn) (y a) + VDDY (y vcn) (y a) + VDDZ (z vcn) (y a) in
      let result_y := result_y - x vcn * (G1_12 metric * x a + G2_12 metric * y a) in
      let result_y := result_y - y vcn * (G1_22 metric * x a + G2_22 metric * y a + G3_22 metric * z a) in
      let result_y := result_y - z vcn * (G2_23 metric * y a + G3_23 metric * z a) in
      let result_z := VDDX (x vcn) (z a) + VDDY (y vcn) (z a) + VDDZ (z vcn) (z a) in
      let result_z := result_z - x vcn * (G1_13 metric * x a + G3_13 metric * z a) in
      let result_z := result_z - y vcn * (G2_23 metric * y a + G3_23 metric * z a) in
      let result_z := result_z - z vcn * (G1_33 metric * x a + G2_33 metric * y a + G3_33 metric * z a) in
      let result_covariant := true in
      mret (mkVector result_x result_y result_z result_covariant)
    else
      let result_x := VDDX (x vcn) (x a) + VDDY (y vcn) (x a) + VDDZ (z vcn) (x a) in
      let result_x := result_x + x vcn * (G1_11 metric * x a + G1_12 metric * y a + G1_13 metric * z a) in
      let result_x := result_x + y vcn * (G1_12 metric * x a + G1_22 metric * y a) in
      let result_x := result_x + z vcn * (G1_13 metric * x a + G1_33 metric * z a) in
      let result_y := VDDX (x vcn) (y a) + VDDY (y vcn) (y a) + VDDZ (z vcn) (y a) in
      let result_y := result_y + x vcn * (G2_11 metric * x a + G2_12 metric * y a) in
      let result_y := result_y + y vcn * (G2_12 metric * x a + G2_22 metric * y a + G2_23 metric * z a) in
      let result_y := result_y + z vcn * (G2_23 metric * y a + G2_33 metric * z a) in
      let result_z := VDDX (x vcn) (z a) + VDDY (y vcn) (z a) + VDDZ (z vcn) (z a) in
      let result_z := result_z + x vcn * (G3_11 metric * x a + G3_13 metric * z a) in
      let result_z := result_z + y vcn * (G3_22 metric * y a + G3_23 metric * z a) in
      let result_z := result_z + z vcn * (G3_13 metric * x a + G3_23 metric * y a + G3_33 metric * z a) in
      let result_covariant := false in
      mret (mkVector result_x result_y result_z result_covariant)).


(** *** The curl without the shift-torsion term, as the spec words it

    Component [i] is the antisymmetric difference of the two cross-axis
    first derivatives of the covariant components, divided by [J]. *)

Definition curl_component2D (vco : Vector2D) (i : axis) : Field2D :=
  (DD_along (next i) (component (next (next i)) vco)
   - DD_along (next (next i)) (component (next i) vco))
  / J (coordinates mesh).

Definition curl_component3D (vco : Vector3D) (i : axis) (outloc : CELL_LOC)
    : Field3D :=
  (DD_along (next i) (component (next (next i)) vco) outloc
   - DD_along (next (next i)) (component (next i) vco) outloc)
  / J (coordinates mesh).

Definition Curl_plain2D (vco : Vector2D) : Vector2D :=
  mkVector (curl_component2D vco Xdir) (curl_component2D vco Ydir)
           (curl_component2D vco Zdir) false.

Definition Curl_plain3D (vco : Vector3D) (outloc_x outloc_y outloc_z : CELL_LOC)
    : Vector3D :=
  mkVector (curl_component3D vco Xdir outloc_x)
           (curl_component3D vco Ydir outloc_y)
           (curl_component3D vco Zdir outloc_z) false.

(** [CELL_VSHIFT] stands for the three low faces, one per axis. *)
Definition expand_VSHIFT (outloc : CELL_LOC) : CELL_LOC * CELL_LOC * CELL_LOC :=
  if decide (outloc = CELL_VSHIFT) then (CELL_XLOW, CELL_YLOW, CELL_ZLOW)
  else (outloc, outloc, outloc).

(** *** Where a result is located

    [located_at v loc]: the three components of [v] are stored at [loc]. *)
Definition located_at (v : Vector3D) (loc : CELL_LOC) : Prop :=
  getLocation (x v) = loc ∧ getLocation (y v) = loc ∧ getLocation (z v) = loc.

(** Modelled from the spec: the location contract of the differencing engine
    and of the field library, neither of which is part of the sources.  A
    derivative is located where the result is asked for, and for
    [CELL_DEFAULT] where its operand is (mesh.hxx on the index derivatives:
    "the cell location where the result is desired.  The default is the same
    as f"); a flux derivative asked for at a location is located there; the
    sum, difference and quotient of a [Field3D] keep the location of their
    left operand; [toCovariant()] keeps the components where they are. *)
Record LocationLaws : Prop := mkLocationLaws
  { loc_DDX : ∀ (f : Field3D) l,
      getLocation (DDX f l)
      = if decide (l = CELL_DEFAULT) then getLocation f else l;
    loc_DDY : ∀ (f : Field3D) l,
      getLocation (DDY f l)
      = if decide (l = CELL_DEFAULT) then getLocation f else l;
    loc_DDZ : ∀ (f : Field3D) l,
      getLocation (DDZ f l)
      = if decide (l = CELL_DEFAULT) then getLocation f else l;
    loc_FDDX : ∀ (v f : Field3D) (m : DIFF_METHOD) l,
      l ≠ CELL_DEFAULT → getLocation (FDDX v f m l) = l;
    loc_add : ∀ a b : Field3D, getLocation (a + b) = getLocation a;
    loc_sub : ∀ a b : Field3D, getLocation (a - b) = getLocation a;
    loc_div : ∀ (a : Field3D) (j : Field2D), getLocation (a / j) = getLocation a;
    loc_covariant_of : ∀ (v : Vector3D) loc,
      located_at v loc → located_at (covariant_of v) loc }.

(** *** What a program may do to the caller's objects

    [keeps n m Q]: run on a store of at least [n] objects, [m] leaves the
    first [n] as they are, does not shrink the store below [n], and returns
    a value satisfying [Q]. *)

Definition keeps {A} (n : nat) (m : Op A) (Q : A → Prop) : Prop :=
  ∀ σ a σ', n ≤ length σ → m σ = Some (a, σ') →
    take n σ' = take n σ ∧ n ≤ length σ' ∧ Q a.

Definition leaves_store_unchanged {A} (m : Op A) : Prop :=
  ∀ σ a σ', m σ = Some (a, σ') → σ' = σ.

(** ** Running an operator on a store *)

Lemma bind_run {A B} (m : Op A) (k : A → Op B) σ a σ' :
  m σ = Some (a, σ') → (m ≫= k) σ = k a σ'.
Proof. intros Hm. unfold mbind, M_bind. by rewrite Hm. Qed.

Lemma bind_inv {A B} (m : Op A) (k : A → Op B) σ b σ'' :
  (m ≫= k) σ = Some (b, σ'') →
  ∃ a σ', m σ = Some (a, σ') ∧ k a σ' = Some (b, σ'').
Proof.
  unfold mbind, M_bind. destruct (m σ) as [[a σ']|]; [|done].
  intros Hk. by exists a, σ'.
Qed.

Lemma read_run {T} (as_T : object Field2D Field3D → option T) r σ l o t :
  σ !! r = Some o → as_T o = Some t →
  read as_T r (σ ++ l) = Some (t, σ ++ l).
Proof.
  intros Hr Ho. unfold read.
  by rewrite (lookup_app_l_Some _ _ _ _ Hr); simpl; rewrite Ho.
Qed.

Lemma read_run_nil {T} (as_T : object Field2D Field3D → option T) r σ o t :
  σ !! r = Some o → as_T o = Some t → read as_T r σ = Some (t, σ).
Proof. intros Hr Ho. unfold read. by rewrite Hr; simpl; rewrite Ho. Qed.

Lemma read_local {T} (as_T : object Field2D Field3D → option T) σ o t :
  as_T o = Some t → read as_T (length σ) (σ ++ [o]) = Some (t, σ ++ [o]).
Proof.
  intros Ho. unfold read.
  by rewrite list_lookup_middle; [simpl; rewrite Ho|].
Qed.

Lemma read_inv {T} (as_T : object Field2D Field3D → option T) r σ t σ' :
  read as_T r σ = Some (t, σ') → σ' = σ.
Proof.
  unfold read. destruct (σ !! r) as [o|]; simpl; [|done].
  destruct (as_T o); simpl; [|done]. by intros [= _ <-].
Qed.

Lemma copy_Vector2D_run σ v vv :
  σ !! v = Some (OVector2D vv) →
  copy_Vector2D v σ = Some (length σ, σ ++ [OVector2D vv]).
Proof.
  intros Hv. unfold copy_Vector2D.
  by rewrite (bind_run _ _ _ _ _ (read_run_nil asVector2D _ _ _ vv Hv eq_refl)).
Qed.

Lemma copy_Vector3D_run σ v vv :
  σ !! v = Some (OVector3D vv) →
  copy_Vector3D v σ = Some (length σ, σ ++ [OVector3D vv]).
Proof.
  intros Hv. unfold copy_Vector3D.
  by rewrite (bind_run _ _ _ _ _ (read_run_nil asVector3D _ _ _ vv Hv eq_refl)).
Qed.

Lemma method2D_local g σ vv :
  method2D g (length σ) (σ ++ [OVector2D vv])
  = Some (tt, σ ++ [OVector2D (g vv)]).
Proof.
  unfold method2D. rewrite list_lookup_middle by done. simpl.
  by rewrite <-(Nat.add_0_r (length σ)), insert_app_r.
Qed.

Lemma method3D_local g σ vv :
  method3D g (length σ) (σ ++ [OVector3D vv])
  = Some (tt, σ ++ [OVector3D (g vv)]).
Proof.
  unfold method3D. rewrite list_lookup_middle by done. simpl.
  by rewrite <-(Nat.add_0_r (length σ)), insert_app_r.
Qed.

Lemma call_run {A} (body : Op A) σ a l :
  body σ = Some (a, σ ++ l) → call body σ = Some (a, σ).
Proof. intros Hb. unfold call. rewrite Hb. simpl. by rewrite take_app_length. Qed.

Lemma call_run_nil {A} (body : Op A) σ a :
  body σ = Some (a, σ) → call body σ = Some (a, σ).
Proof. intros Hb. apply (call_run _ _ _ []). by rewrite app_nil_r. Qed.

(** The prologue [Vector3D vcn = v; vcn.toContravariant();] (or
    [toCovariant]) followed by the rest of the body, which finds the
    converted local at the end of the store. *)
Lemma with_converted_copy2D {A} g (k : ref → Op A) σ v vv r :
  σ !! v = Some (OVector2D vv) →
  k (length σ) (σ ++ [OVector2D (g vv)]) = r →
  (vcn ← copy_Vector2D v; method2D g vcn;; k vcn) σ = r.
Proof.
  intros Hv Hk.
  rewrite (bind_run _ _ _ _ _ (copy_Vector2D_run _ _ _ Hv)).
  by rewrite (bind_run _ _ _ _ _ (method2D_local g σ vv)).
Qed.

Lemma with_converted_copy3D {A} g (k : ref → Op A) σ v vv r :
  σ !! v = Some (OVector3D vv) →
  k (length σ) (σ ++ [OVector3D (g vv)]) = r →
  (vcn ← copy_Vector3D v; method3D g vcn;; k vcn) σ = r.
Proof.
  intros Hv Hk.
  rewrite (bind_run _ _ _ _ _ (copy_Vector3D_run _ _ _ Hv)).
  by rewrite (bind_run _ _ _ _ _ (method3D_local g σ vv)).
Qed.

(** One read of the body: the converted local, or an operand of the caller. *)
Ltac run_read :=
  cbv beta;
  erewrite bind_run
    by first [ by apply read_local | by eapply read_run | by eapply read_run_nil ].

(** A whole operator whose body starts with the copy-and-convert prologue. *)
Ltac run_converted3D w Hv :=
  apply (call_run _ _ _ [OVector3D w]);
  apply (with_converted_copy3D _ _ _ _ _ _ Hv);
  repeat run_read.
Ltac run_converted2D w Hv :=
  apply (call_run _ _ _ [OVector2D w]);
  apply (with_converted_copy2D _ _ _ _ _ _ Hv);
  repeat run_read.

(** *** What each operator returns on valid operands *)

Lemma Grad_Field2D_run σ f fv outloc :
  σ !! f = Some (OField2D fv) →
  Grad_Field2D f outloc σ
  = Some (mkVector (DDX fv) (DDY fv) (DDZ fv) true, σ).
Proof.
  intros Hf. unfold Grad_Field2D. apply call_run_nil. by run_read.
Qed.

Lemma Grad_Field3D_xyz_run σ f fv outloc_x outloc_y outloc_z :
  σ !! f = Some (OField3D fv) →
  Grad_Field3D_xyz f outloc_x outloc_y outloc_z σ
  = Some (mkVector (DDX fv (default_to (getLocation fv) outloc_x))
                   (DDY fv (default_to (getLocation fv) outloc_y))
                   (DDZ fv (default_to (getLocation fv) outloc_z)) true, σ).
Proof.
  intros Hf. unfold Grad_Field3D_xyz. apply call_run_nil. by run_read.
Qed.

Lemma Grad_Field3D_run σ f fv outloc :
  σ !! f = Some (OField3D fv) →
  Grad_Field3D f outloc σ
  = let '(lx, ly, lz) := expand_VSHIFT outloc in
    Grad_Field3D_xyz f lx ly lz σ.
Proof.
  intros Hf. unfold Grad_Field3D, expand_VSHIFT.
  destruct (decide (outloc = CELL_VSHIFT));
    rewrite (Grad_Field3D_xyz_run _ _ _ _ _ _ Hf);
    apply call_run_nil, (Grad_Field3D_xyz_run _ _ _ _ _ _ Hf).
Qed.

Lemma Grad_perp_run σ f fv outloc_x outloc_y outloc_z :
  σ !! f = Some (OField3D fv) →
  let metric := coordinates mesh in
  let lx := default_to (getLocation fv) outloc_x in
  let lz := default_to (getLocation fv) outloc_z in
  let inv_JB := Field3D_of_Field2D (real_1 / (J metric * Bxy metric)) in
  let parcoef := inv_JB * inv_JB in
  Grad_perp f outloc_x outloc_y outloc_z σ
  = Some (mkVector (DDX fv lx - parcoef * g_12 metric * DDY fv lx)
                   (Field3D_of_BoutReal real_0)
                   (DDZ fv lz - parcoef * g_23 metric * DDY fv lz) true, σ).
Proof.
  intros Hf. unfold Grad_perp. apply call_run_nil. by run_read.
Qed.

Lemma Div_Vector2D_run σ v vv outloc :
  σ !! v = Some (OVector2D vv) →
  let vcn := contravariant_of vv in
  let metric := coordinates mesh in
  Div_Vector2D v outloc σ
  = Some ((DDX (J metric * x vcn) + DDY (J metric * y vcn)
           + DDZ (J metric * z vcn)) / J metric, σ).
Proof.
  intros Hv. unfold Div_Vector2D. by run_converted2D (contravariant_of vv) Hv.
Qed.

Lemma Div_Vector3D_run σ v vv outloc :
  σ !! v = Some (OVector3D vv) →
  let vcn := contravariant_of vv in
  let metric := coordinates mesh in
  let loc := default_to CELL_CENTRE outloc in
  Div_Vector3D v outloc σ
  = Some ((DDX (J metric * x vcn) loc + DDY (J metric * y vcn) loc
           + DDZ (J metric * z vcn) loc) / J metric, σ).
Proof.
  intros Hv. unfold Div_Vector3D. by run_converted3D (contravariant_of vv) Hv.
Qed.

Lemma Div_Vector2D_Field2D_run σ v f vv fv :
  σ !! v = Some (OVector2D vv) → σ !! f = Some (OField2D fv) →
  let vcn := contravariant_of vv in
  let metric := coordinates mesh in
  Div_Vector2D_Field2D v f σ
  = Some ((FDDX (J metric * x vcn) fv + FDDY (J metric * y vcn) fv
           + FDDZ (J metric * z vcn) fv) / J metric, σ).
Proof.
  intros Hv Hf. unfold Div_Vector2D_Field2D.
  by run_converted2D (contravariant_of vv) Hv.
Qed.

Lemma Div_Vector3D_Field3D_method_outloc_run σ v f vv fv method outloc :
  σ !! v = Some (OVector3D vv) → σ !! f = Some (OField3D fv) →
  let vcn := contravariant_of vv in
  let metric := coordinates mesh in
  let loc := default_to CELL_CENTRE outloc in
  Div_Vector3D_Field3D_method_outloc v f method outloc σ
  = Some ((FDDX (J metric * x vcn) fv method loc
           + FDDY (J metric * y vcn) fv method loc
           + FDDZ (J metric * z vcn) fv method loc) / J metric, σ).
Proof.
  intros Hv Hf. unfold Div_Vector3D_Field3D_method_outloc.
  by run_converted3D (contravariant_of vv) Hv.
Qed.

Lemma Curl_Vector2D_run σ v vv outloc :
  σ !! v = Some (OVector2D vv) →
  let vco := covariant_of vv in
  let metric := coordinates mesh in
  let plain := Curl_plain2D vco in
  Curl_Vector2D v outloc σ
  = Some (if ShiftXderivs mesh
          then mkVector (x plain) (y plain)
                 (z plain - ShiftTorsion metric * z vco / J metric) false
          else plain, σ).
Proof.
  intros Hv. unfold Curl_Vector2D. run_converted2D (covariant_of vv) Hv.
  by destruct (ShiftXderivs mesh).
Qed.

Lemma Curl_Vector3D_xyz_run σ v vv outloc_x outloc_y outloc_z :
  σ !! v = Some (OVector3D vv) →
  let vco := covariant_of vv in
  let metric := coordinates mesh in
  let plain := Curl_plain3D vco outloc_x outloc_y outloc_z in
  Curl_Vector3D_xyz v outloc_x outloc_y outloc_z σ
  = Some (if ShiftXderivs mesh
          then mkVector (x plain) (y plain)
                 (z plain - ShiftTorsion metric * z vco / J metric) false
          else plain, σ).
Proof.
  intros Hv. unfold Curl_Vector3D_xyz. run_converted3D (covariant_of vv) Hv.
  by destruct (ShiftXderivs mesh).
Qed.

Lemma Curl_Vector3D_run σ v vv outloc :
  σ !! v = Some (OVector3D vv) →
  Curl_Vector3D v outloc σ
  = let '(lx, ly, lz) := expand_VSHIFT outloc in
    Curl_Vector3D_xyz v lx ly lz σ.
Proof.
  intros Hv. unfold Curl_Vector3D, expand_VSHIFT.
  destruct (decide (outloc = CELL_VSHIFT));
    rewrite (Curl_Vector3D_xyz_run _ _ _ _ _ _ Hv);
    apply call_run_nil, (Curl_Vector3D_xyz_run _ _ _ _ _ _ Hv).
Qed.

Lemma V_dot_Grad_Vector2D_Vector2D_run σ v a vv av :
  σ !! v = Some (OVector2D vv) → σ !! a = Some (OVector2D av) →
  V_dot_Grad_Vector2D_Vector2D v a σ
  = Some (V_dot_Grad_value (coordinates mesh) (contravariant_of vv) av, σ).
Proof.
  intros Hv Ha. unfold V_dot_Grad_Vector2D_Vector2D.
  run_converted2D (contravariant_of vv) Hv.
  unfold V_dot_Grad_value, V_dot_Grad_component. by destruct (covariant av).
Qed.

Lemma V_dot_Grad_Vector2D_Vector3D_run σ v a vv av :
  σ !! v = Some (OVector2D vv) → σ !! a = Some (OVector3D av) →
  V_dot_Grad_Vector2D_Vector3D v a σ
  = Some (V_dot_Grad_value (coordinates mesh) (contravariant_of vv) av, σ).
Proof.
  intros Hv Ha. unfold V_dot_Grad_Vector2D_Vector3D.
  run_converted2D (contravariant_of vv) Hv.
  unfold V_dot_Grad_value, V_dot_Grad_component. by destruct (covariant av).
Qed.

Lemma V_dot_Grad_Vector3D_Vector2D_run σ v a vv av :
  σ !! v = Some (OVector3D vv) → σ !! a = Some (OVector2D av) →
  V_dot_Grad_Vector3D_Vector2D v a σ
  = Some (V_dot_Grad_value (coordinates mesh) (contravariant_of vv) av, σ).
Proof.
  intros Hv Ha. unfold V_dot_Grad_Vector3D_Vector2D.
  run_converted3D (contravariant_of vv) Hv.
  unfold V_dot_Grad_value, V_dot_Grad_component. by destruct (covariant av).
Qed.

Lemma V_dot_Grad_Vector3D_Vector3D_run σ v a vv av :
  σ !! v = Some (OVector3D vv) → σ !! a = Some (OVector3D av) →
  V_dot_Grad_Vector3D_Vector3D v a σ
  = Some (V_dot_Grad_value (coordinates mesh) (contravariant_of vv) av, σ).
Proof.
  intros Hv Ha. unfold V_dot_Grad_Vector3D_Vector3D.
  run_converted3D (contravariant_of vv) Hv.
  unfold V_dot_Grad_value, V_dot_Grad_component. by destruct (covariant av).
Qed.

(** *** The caller's objects are out of reach of the operators *)

Lemma keeps_ret {A} n (a : A) (Q : A → Prop) : Q a → keeps n (mret a) Q.
Proof. intros HQ σ b σ' Hn [= <- <-]. done. Qed.

Lemma keeps_bind {A B} n (m : Op A) (k : A → Op B) Q R :
  keeps n m Q → (∀ a, Q a → keeps n (k a) R) → keeps n (m ≫= k) R.
Proof.
  intros Hm Hk σ b σ'' Hn Hrun.
  destruct (bind_inv _ _ _ _ _ Hrun) as (a & σ' & Hm' & Hk').
  destruct (Hm _ _ _ Hn Hm') as (Heq & Hn' & HQ).
  destruct (Hk _ HQ _ _ _ Hn' Hk') as (Heq' & Hn'' & HR).
  by rewrite Heq', Heq.
Qed.

Lemma keeps_read {T} n (as_T : object Field2D Field3D → option T) r :
  keeps n (read as_T r) (λ _, True).
Proof. intros σ t σ' Hn Hrun. by rewrite (read_inv _ _ _ _ _ Hrun). Qed.

Lemma keeps_new n o : keeps n (new o) (λ r, n ≤ r).
Proof.
  intros σ r σ' Hn [= <- <-]. rewrite length_app.
  split_and!; [by rewrite take_app_le | lia | done].
Qed.

Lemma keeps_copy_Vector2D n v : keeps n (copy_Vector2D v) (λ r, n ≤ r).
Proof.
  eapply keeps_bind; [apply keeps_read|]. intros vv _. apply keeps_new.
Qed.

Lemma keeps_copy_Vector3D n v : keeps n (copy_Vector3D v) (λ r, n ≤ r).
Proof.
  eapply keeps_bind; [apply keeps_read|]. intros vv _. apply keeps_new.
Qed.

Lemma keeps_method2D n g (this : ref) :
  n ≤ this → keeps n (method2D g this) (λ _, True).
Proof.
  intros Hthis σ [] σ' Hn. unfold method2D.
  destruct (σ !! this) as [o|]; simpl; [|done].
  destruct (asVector2D o); simpl; [|done]. intros [= <-].
  rewrite length_insert. by rewrite take_insert_ge.
Qed.

Lemma keeps_method3D n g (this : ref) :
  n ≤ this → keeps n (method3D g this) (λ _, True).
Proof.
  intros Hthis σ [] σ' Hn. unfold method3D.
  destruct (σ !! this) as [o|]; simpl; [|done].
  destruct (asVector3D o); simpl; [|done]. intros [= <-].
  rewrite length_insert. by rewrite take_insert_ge.
Qed.

Lemma call_inv {A} (body : Op A) (Q : A → Prop) σ a σ' :
  (∀ n, keeps n body Q) → call body σ = Some (a, σ') → σ' = σ ∧ Q a.
Proof.
  intros Hbody. unfold call.
  destruct (body σ) as [[b σ'']|] eqn:Hrun; simpl; [|done].
  intros [= <- <-].
  destruct (Hbody (length σ) _ _ _ (Nat.le_refl _) Hrun) as (Heq & _ & HQ).
  by rewrite Heq, firstn_all.
Qed.

Lemma keeps_call {A} n (body : Op A) (Q : A → Prop) :
  (∀ n', keeps n' body Q) → keeps n (call body) Q.
Proof.
  intros Hbody σ a σ' Hn Hrun.
  by destruct (call_inv _ _ _ _ _ Hbody Hrun) as [-> HQ].
Qed.

Lemma call_unchanged {A} (body : Op A) :
  (∀ n, keeps n body (λ _, True)) → leaves_store_unchanged (call body).
Proof. intros Hbody σ a σ' Hrun. by destruct (call_inv _ _ _ _ _ Hbody Hrun). Qed.

(** Walks through a body: binds, reads, the copy of an operand, a
    conversion of the copy, nested calls and the final [return]. *)
Ltac keeps_step :=
  lazymatch goal with
  | |- keeps _ (call _) _ => apply keeps_call; intros ?
  | |- keeps _ (mbind _ _) _ => eapply keeps_bind; [|intros ? ?]
  | |- keeps _ (mret _) _ => by apply keeps_ret
  | |- keeps _ (read _ _) _ => apply keeps_read
  | |- keeps _ (copy_Vector2D _) _ => apply keeps_copy_Vector2D
  | |- keeps _ (copy_Vector3D _) _ => apply keeps_copy_Vector3D
  | |- keeps _ (method2D _ _) _ => by apply keeps_method2D
  | |- keeps _ (method3D _ _) _ => by apply keeps_method3D
  | |- keeps _ (if ?b then _ else _) _ => destruct b
  end.

Ltac keeps_body :=
  unfold toContravariant2D, toCovariant2D, toContravariant3D, toCovariant3D;
  cbv zeta; repeat keeps_step.

(** The three operators that other overloads call. *)
Lemma Grad_Field3D_xyz_keeps n f outloc_x outloc_y outloc_z :
  keeps n (Grad_Field3D_xyz f outloc_x outloc_y outloc_z) (λ _, True).
Proof. unfold Grad_Field3D_xyz. keeps_body. Qed.

Lemma Curl_Vector3D_xyz_keeps n v outloc_x outloc_y outloc_z :
  keeps n (Curl_Vector3D_xyz v outloc_x outloc_y outloc_z) (λ _, True).
Proof. unfold Curl_Vector3D_xyz. keeps_body. Qed.

Lemma Div_Vector3D_Field3D_method_outloc_keeps n v f method outloc :
  keeps n (Div_Vector3D_Field3D_method_outloc v f method outloc) (λ _, True).
Proof. unfold Div_Vector3D_Field3D_method_outloc. keeps_body. Qed.

(** Each operator is a [call] whose body stays within its own locals. *)
Ltac unchanged :=
  apply call_unchanged; intros ?; keeps_body.

Lemma Grad_Field2D_unchanged f outloc :
  leaves_store_unchanged (Grad_Field2D f outloc).
Proof. unfold Grad_Field2D. unchanged. Qed.

Lemma Grad_Field3D_xyz_unchanged f outloc_x outloc_y outloc_z :
  leaves_store_unchanged (Grad_Field3D_xyz f outloc_x outloc_y outloc_z).
Proof. unfold Grad_Field3D_xyz. unchanged. Qed.

Lemma Grad_Field3D_unchanged f outloc :
  leaves_store_unchanged (Grad_Field3D f outloc).
Proof. unfold Grad_Field3D. unchanged; apply Grad_Field3D_xyz_keeps. Qed.

Lemma Grad_perp_unchanged f outloc_x outloc_y outloc_z :
  leaves_store_unchanged (Grad_perp f outloc_x outloc_y outloc_z).
Proof. unfold Grad_perp. unchanged. Qed.

Lemma Div_Vector2D_unchanged v outloc :
  leaves_store_unchanged (Div_Vector2D v outloc).
Proof. unfold Div_Vector2D. unchanged. Qed.

Lemma Div_Vector3D_unchanged v outloc :
  leaves_store_unchanged (Div_Vector3D v outloc).
Proof. unfold Div_Vector3D. unchanged. Qed.

Lemma Div_Vector2D_Field2D_unchanged v f :
  leaves_store_unchanged (Div_Vector2D_Field2D v f).
Proof. unfold Div_Vector2D_Field2D. unchanged. Qed.

Lemma Div_Vector3D_Field3D_method_outloc_unchanged v f method outloc :
  leaves_store_unchanged (Div_Vector3D_Field3D_method_outloc v f method outloc).
Proof. unfold Div_Vector3D_Field3D_method_outloc. unchanged. Qed.

Lemma Div_Vector3D_Field3D_outloc_method_unchanged v f outloc method :
  leaves_store_unchanged (Div_Vector3D_Field3D_outloc_method v f outloc method).
Proof. unfold Div_Vector3D_Field3D_outloc_method. unchanged; apply Div_Vector3D_Field3D_method_outloc_keeps. Qed.

Lemma Div_Vector3D_Field3D_unchanged v f :
  leaves_store_unchanged (Div_Vector3D_Field3D v f).
Proof. unfold Div_Vector3D_Field3D. unchanged; apply Div_Vector3D_Field3D_method_outloc_keeps. Qed.

Lemma Curl_Vector2D_unchanged v outloc :
  leaves_store_unchanged (Curl_Vector2D v outloc).
Proof. unfold Curl_Vector2D. unchanged. Qed.

Lemma Curl_Vector3D_xyz_unchanged v outloc_x outloc_y outloc_z :
  leaves_store_unchanged (Curl_Vector3D_xyz v outloc_x outloc_y outloc_z).
Proof. unfold Curl_Vector3D_xyz. unchanged. Qed.

Lemma Curl_Vector3D_unchanged v outloc :
  leaves_store_unchanged (Curl_Vector3D v outloc).
Proof. unfold Curl_Vector3D. unchanged; apply Curl_Vector3D_xyz_keeps. Qed.

Lemma V_dot_Grad_Vector2D_Field2D_unchanged v f :
  leaves_store_unchanged (V_dot_Grad_Vector2D_Field2D v f).
Proof. unfold V_dot_Grad_Vector2D_Field2D. unchanged. Qed.

Lemma V_dot_Grad_Vector2D_Field3D_unchanged v f :
  leaves_store_unchanged (V_dot_Grad_Vector2D_Field3D v f).
Proof. unfold V_dot_Grad_Vector2D_Field3D. unchanged. Qed.

Lemma V_dot_Grad_Vector3D_Field2D_unchanged v f :
  leaves_store_unchanged (V_dot_Grad_Vector3D_Field2D v f).
Proof. unfold V_dot_Grad_Vector3D_Field2D. unchanged. Qed.

Lemma V_dot_Grad_Vector3D_Field3D_unchanged v f :
  leaves_store_unchanged (V_dot_Grad_Vector3D_Field3D v f).
Proof. unfold V_dot_Grad_Vector3D_Field3D. unchanged. Qed.

Lemma V_dot_Grad_Vector2D_Vector2D_unchanged v a :
  leaves_store_unchanged (V_dot_Grad_Vector2D_Vector2D v a).
Proof. unfold V_dot_Grad_Vector2D_Vector2D. unchanged. Qed.

Lemma V_dot_Grad_Vector2D_Vector3D_unchanged v a :
  leaves_store_unchanged (V_dot_Grad_Vector2D_Vector3D v a).
Proof. unfold V_dot_Grad_Vector2D_Vector3D. unchanged. Qed.

Lemma V_dot_Grad_Vector3D_Vector2D_unchanged v a :
  leaves_store_unchanged (V_dot_Grad_Vector3D_Vector2D v a).
Proof. unfold V_dot_Grad_Vector3D_Vector2D. unchanged. Qed.

Lemma V_dot_Grad_Vector3D_Vector3D_unchanged v a :
  leaves_store_unchanged (V_dot_Grad_Vector3D_Vector3D v a).
Proof. unfold V_dot_Grad_Vector3D_Vector3D. unchanged. Qed.

Lemma call_call {A} (body : Op A) σ : call (call body) σ = call body σ.
Proof.
  unfold call. destruct (body σ) as [[a σ']|]; simpl; [|done].
  by rewrite take_take, Nat.min_id.
Qed.

(** *** The index form of the advective derivative, written out

    The x component in both branches, to read [V_dot_Grad_value] against the
    C++ text. *)
Example V_dot_Grad_value_x_covariant (vcn a : Vector3D) :
  covariant a = true →
  let m := coordinates mesh in
  x (V_dot_Grad_value m vcn a)
  = VDDX (x vcn) (x a) + VDDY (y vcn) (x a) + VDDZ (z vcn) (x a)
    - x vcn * (G1_11 m * x a + G2_11 m * y a + G3_11 m * z a)
    - y vcn * (G1_12 m * x a + G2_12 m * y a)
    - z vcn * (G1_13 m * x a + G3_13 m * z a).
Proof. intros Ha. simpl. unfold V_dot_Grad_component. by rewrite Ha. Qed.

Example V_dot_Grad_value_x_contravariant (vcn a : Vector3D) :
  covariant a = false →
  let m := coordinates mesh in
  x (V_dot_Grad_value m vcn a)
  = VDDX (x vcn) (x a) + VDDY (y vcn) (x a) + VDDZ (z vcn) (x a)
    + x vcn * (G1_11 m * x a + G1_12 m * y a + G1_13 m * z a)
    + y vcn * (G1_12 m * x a + G1_22 m * y a)
    + z vcn * (G1_13 m * x a + G1_33 m * z a).
Proof. intros Ha. simpl. unfold V_dot_Grad_component. by rewrite Ha. Qed.

(** ** The claims about vecops.cxx *)


(** C2.  For each of the four [V_dot_Grad(v, a)] overloads with a vector
    target, the result is [V_dot_Grad_value] of the contravariant form of
    [v] and of [a]: the branch is taken on [covariant a] alone, a covariant
    [a] has its corrections subtracted with the symbols indexed by the lower
    pair, a contravariant [a] has them added with the symbols indexed by the
    upper index, and [v] enters only through its contravariant form. *)
Theorem C2_V_dot_Grad_branch_on_target σ :
  (∀ v a vv av,
     σ !! v = Some (OVector2D vv) → σ !! a = Some (OVector2D av) →
     V_dot_Grad_Vector2D_Vector2D v a σ
     = Some (V_dot_Grad_value (coordinates mesh) (contravariant_of vv) av, σ))
  ∧ (∀ v a vv av,
     σ !! v = Some (OVector2D vv) → σ !! a = Some (OVector3D av) →
     V_dot_Grad_Vector2D_Vector3D v a σ
     = Some (V_dot_Grad_value (coordinates mesh) (contravariant_of vv) av, σ))
  ∧ (∀ v a vv av,
     σ !! v = Some (OVector3D vv) → σ !! a = Some (OVector2D av) →
     V_dot_Grad_Vector3D_Vector2D v a σ
     = Some (V_dot_Grad_value (coordinates mesh) (contravariant_of vv) av, σ))
  ∧ (∀ v a vv av,
     σ !! v = Some (OVector3D vv) → σ !! a = Some (OVector3D av) →
     V_dot_Grad_Vector3D_Vector3D v a σ
     = Some (V_dot_Grad_value (coordinates mesh) (contravariant_of vv) av, σ)).
Proof.
  split_and!; intros v a vv av Hv Ha.
  - by apply V_dot_Grad_Vector2D_Vector2D_run.
  - by apply V_dot_Grad_Vector2D_Vector3D_run.
  - by apply V_dot_Grad_Vector3D_Vector2D_run.
  - by apply V_dot_Grad_Vector3D_Vector3D_run.
Qed.

(** C3.  [Curl(v)] works on the covariant form [vco] of [v]; each component
    of the contravariant result is the antisymmetric difference of the two
    cross-axis first derivatives over [J]; [ShiftTorsion * vco.z / J] is
    subtracted from the z component exactly when [mesh->ShiftXderivs] is
    set, and otherwise the result is the one computed without that term.
    The one-location overload passes its location to all three components,
    [CELL_VSHIFT] standing for the three low faces. *)
Theorem C3_Curl_shift_torsion σ :
  (∀ v vv outloc_x outloc_y outloc_z,
     σ !! v = Some (OVector3D vv) →
     let vco := covariant_of vv in
     let metric := coordinates mesh in
     let plain := Curl_plain3D vco outloc_x outloc_y outloc_z in
     Curl_Vector3D_xyz v outloc_x outloc_y outloc_z σ
     = Some (if ShiftXderivs mesh
             then mkVector (x plain) (y plain)
                    (z plain - ShiftTorsion metric * z vco / J metric) false
             else plain, σ))
  ∧ (∀ v vv outloc,
     σ !! v = Some (OVector2D vv) →
     let vco := covariant_of vv in
     let metric := coordinates mesh in
     let plain := Curl_plain2D vco in
     Curl_Vector2D v outloc σ
     = Some (if ShiftXderivs mesh
             then mkVector (x plain) (y plain)
                    (z plain - ShiftTorsion metric * z vco / J metric) false
             else plain, σ))
  ∧ (∀ v vv outloc,
     σ !! v = Some (OVector3D vv) →
     Curl_Vector3D v outloc σ
     = if decide (outloc = CELL_VSHIFT)
       then Curl_Vector3D_xyz v CELL_XLOW CELL_YLOW CELL_ZLOW σ
       else Curl_Vector3D_xyz v outloc outloc outloc σ).
Proof.
  split_and!.
  - intros v vv lx ly lz Hv. by apply Curl_Vector3D_xyz_run.
  - intros v vv outloc Hv. by apply Curl_Vector2D_run.
  - intros v vv outloc Hv. rewrite (Curl_Vector3D_run _ _ _ _ Hv).
    unfold expand_VSHIFT. by destruct (decide (outloc = CELL_VSHIFT)).
Qed.

(** C4.  [Div(v)] is the flux form: with [vcn] the contravariant form of
    [v], the sum over the three axes of the first derivative along the axis
    of [J] times that component of [vcn], divided by [J]; the value returned
    is a scalar field ([Field2D] for a [Vector2D], [Field3D] for a
    [Vector3D]). *)
Theorem C4_Div_flux_form σ :
  (∀ v vv outloc,
     σ !! v = Some (OVector3D vv) →
     let vcn := contravariant_of vv in
     let metric := coordinates mesh in
     let loc := default_to CELL_CENTRE outloc in
     Div_Vector3D v outloc σ
     = Some ((DD_along Xdir (J metric * component Xdir vcn) loc
              + DD_along Ydir (J metric * component Ydir vcn) loc
              + DD_along Zdir (J metric * component Zdir vcn) loc)
             / J metric, σ))
  ∧ (∀ v vv outloc,
     σ !! v = Some (OVector2D vv) →
     let vcn := contravariant_of vv in
     let metric := coordinates mesh in
     Div_Vector2D v outloc σ
     = Some ((DD_along Xdir (J metric * component Xdir vcn)
              + DD_along Ydir (J metric * component Ydir vcn)
              + DD_along Zdir (J metric * component Zdir vcn))
             / J metric, σ)).
Proof.
  split.
  - intros v vv outloc Hv. by apply Div_Vector3D_run.
  - intros v vv outloc Hv. by apply Div_Vector2D_run.
Qed.

(** C5.  The two flux-divergence overloads agree: [Div(v, f, outloc, method)]
    returns what [Div(v, f, method, outloc)] returns, on every store. *)
Theorem C5_Div_argument_order v f outloc method σ :
  Div_Vector3D_Field3D_outloc_method v f outloc method σ
  = Div_Vector3D_Field3D_method_outloc v f method outloc σ.
Proof.
  unfold Div_Vector3D_Field3D_outloc_method, Div_Vector3D_Field3D_method_outloc.
  apply call_call.
Qed.

(** C6.  [Grad(f)] on a [Field3D] returns the vector of the first
    derivatives of [f] along X, Y and Z, each at the location asked for on
    that axis (the location of [f] where [CELL_DEFAULT] is asked for; the
    one-location overload asks for the same location on the three axes,
    [CELL_VSHIFT] standing for the three low faces); on a [Field2D], whose
    derivatives take no location, it returns the vector of [DDX(f)],
    [DDY(f)] and [DDZ(f)]; the result is covariant in every overload. *)
Theorem C6_Grad_components σ :
  (∀ f fv outloc_x outloc_y outloc_z,
     σ !! f = Some (OField3D fv) →
     let requested outloc :=
       if decide (outloc = CELL_DEFAULT) then getLocation fv else outloc in
     Grad_Field3D_xyz f outloc_x outloc_y outloc_z σ
     = Some (mkVector (DDX fv (requested outloc_x))
                      (DDY fv (requested outloc_y))
                      (DDZ fv (requested outloc_z))
                      true, σ))
  ∧ (∀ f fv outloc,
     σ !! f = Some (OField3D fv) →
     let requested :=
       if decide (outloc = CELL_DEFAULT) then getLocation fv else outloc in
     Grad_Field3D f outloc σ
     = Some (if decide (outloc = CELL_VSHIFT)
             then mkVector (DDX fv CELL_XLOW) (DDY fv CELL_YLOW)
                           (DDZ fv CELL_ZLOW) true
             else mkVector (DDX fv requested) (DDY fv requested)
                           (DDZ fv requested) true, σ))
  ∧ (∀ f fv outloc,
     σ !! f = Some (OField2D fv) →
     Grad_Field2D f outloc σ
     = Some (mkVector (DDX fv) (DDY fv) (DDZ fv) true, σ)).
Proof.
  split_and!.
  - intros f fv lx ly lz Hf requested.
    by apply Grad_Field3D_xyz_run.
  - intros f fv outloc Hf requested. rewrite (Grad_Field3D_run _ _ _ _ Hf).
    unfold expand_VSHIFT.
    destruct (decide (outloc = CELL_VSHIFT));
      by rewrite (Grad_Field3D_xyz_run _ _ _ _ _ _ Hf).
  - intros f fv outloc Hf. by apply Grad_Field2D_run.
Qed.

(** C7.  [Grad_perp(f)] returns a covariant vector whose y component is the
    field set to [0.0], whose x component is [DDX(f)] minus
    (1/(J Bxy))^2 g_12 [DDY(f)] and whose z component is [DDZ(f)] minus
    (1/(J Bxy))^2 g_23 [DDY(f)]. *)
Theorem C7_Grad_perp_components σ f fv outloc_x outloc_y outloc_z :
  σ !! f = Some (OField3D fv) →
  let metric := coordinates mesh in
  let lx := default_to (getLocation fv) outloc_x in
  let lz := default_to (getLocation fv) outloc_z in
  let inv_JB := Field3D_of_Field2D (real_1 / (J metric * Bxy metric)) in
  ∃ r, Grad_perp f outloc_x outloc_y outloc_z σ = Some (r, σ)
    ∧ covariant r = true
    ∧ y r = Field3D_of_BoutReal real_0
    ∧ x r = DDX fv lx - inv_JB * inv_JB * g_12 metric * DDY fv lx
    ∧ z r = DDZ fv lz - inv_JB * inv_JB * g_23 metric * DDY fv lz.
Proof.
  intros Hf metric lx lz inv_JB. eexists. split.
  - by apply Grad_perp_run.
  - done.
Qed.

(** C8.  No operator changes an object of its caller: whenever one of the
    operators returns, the store it leaves is the store it was called on,
    so every operand has the components and the covariant flag it had
    before; the conversions act on a copy that is local to the call. *)
Theorem C8_operands_not_mutated :
  (∀ f outloc, leaves_store_unchanged (Grad_Field2D f outloc))
  ∧ (∀ f lx ly lz, leaves_store_unchanged (Grad_Field3D_xyz f lx ly lz))
  ∧ (∀ f outloc, leaves_store_unchanged (Grad_Field3D f outloc))
  ∧ (∀ f lx ly lz, leaves_store_unchanged (Grad_perp f lx ly lz))
  ∧ (∀ v outloc, leaves_store_unchanged (Div_Vector2D v outloc))
  ∧ (∀ v outloc, leaves_store_unchanged (Div_Vector3D v outloc))
  ∧ (∀ v f, leaves_store_unchanged (Div_Vector2D_Field2D v f))
  ∧ (∀ v f method outloc,
      leaves_store_unchanged
        (Div_Vector3D_Field3D_method_outloc v f method outloc))
  ∧ (∀ v f outloc method,
      leaves_store_unchanged
        (Div_Vector3D_Field3D_outloc_method v f outloc method))
  ∧ (∀ v f, leaves_store_unchanged (Div_Vector3D_Field3D v f))
  ∧ (∀ v outloc, leaves_store_unchanged (Curl_Vector2D v outloc))
  ∧ (∀ v lx ly lz, leaves_store_unchanged (Curl_Vector3D_xyz v lx ly lz))
  ∧ (∀ v outloc, leaves_store_unchanged (Curl_Vector3D v outloc))
  ∧ (∀ v f, leaves_store_unchanged (V_dot_Grad_Vector2D_Field2D v f))
  ∧ (∀ v f, leaves_store_unchanged (V_dot_Grad_Vector2D_Field3D v f))
  ∧ (∀ v f, leaves_store_unchanged (V_dot_Grad_Vector3D_Field2D v f))
  ∧ (∀ v f, leaves_store_unchanged (V_dot_Grad_Vector3D_Field3D v f))
  ∧ (∀ v a, leaves_store_unchanged (V_dot_Grad_Vector2D_Vector2D v a))
  ∧ (∀ v a, leaves_store_unchanged (V_dot_Grad_Vector2D_Vector3D v a))
  ∧ (∀ v a, leaves_store_unchanged (V_dot_Grad_Vector3D_Vector2D v a))
  ∧ (∀ v a, leaves_store_unchanged (V_dot_Grad_Vector3D_Vector3D v a)).
Proof.
  split_and!; intros.
  - apply Grad_Field2D_unchanged.
  - apply Grad_Field3D_xyz_unchanged.
  - apply Grad_Field3D_unchanged.
  - apply Grad_perp_unchanged.
  - apply Div_Vector2D_unchanged.
  - apply Div_Vector3D_unchanged.
  - apply Div_Vector2D_Field2D_unchanged.
  - apply Div_Vector3D_Field3D_method_outloc_unchanged.
  - apply Div_Vector3D_Field3D_outloc_method_unchanged.
  - apply Div_Vector3D_Field3D_unchanged.
  - apply Curl_Vector2D_unchanged.
  - apply Curl_Vector3D_xyz_unchanged.
  - apply Curl_Vector3D_unchanged.
  - apply V_dot_Grad_Vector2D_Field2D_unchanged.
  - apply V_dot_Grad_Vector2D_Field3D_unchanged.
  - apply V_dot_Grad_Vector3D_Field2D_unchanged.
  - apply V_dot_Grad_Vector3D_Field3D_unchanged.
  - apply V_dot_Grad_Vector2D_Vector2D_unchanged.
  - apply V_dot_Grad_Vector2D_Vector3D_unchanged.
  - apply V_dot_Grad_Vector3D_Vector2D_unchanged.
  - apply V_dot_Grad_Vector3D_Vector3D_unchanged.
Qed.
(** ** Further properties of vecops.cxx *)

Lemma V_dot_Grad_Vector2D_Field2D_run σ v f vv fv :
  σ !! v = Some (OVector2D vv) → σ !! f = Some (OField2D fv) →
  V_dot_Grad_Vector2D_Field2D v f σ
  = Some (advect (contravariant_of vv) fv, σ).
Proof.
  intros Hv Hf. unfold V_dot_Grad_Vector2D_Field2D.
  by run_converted2D (contravariant_of vv) Hv.
Qed.

Lemma V_dot_Grad_Vector2D_Field3D_run σ v f vv fv :
  σ !! v = Some (OVector2D vv) → σ !! f = Some (OField3D fv) →
  V_dot_Grad_Vector2D_Field3D v f σ
  = Some (advect (contravariant_of vv) fv, σ).
Proof.
  intros Hv Hf. unfold V_dot_Grad_Vector2D_Field3D.
  by run_converted2D (contravariant_of vv) Hv.
Qed.

Lemma V_dot_Grad_Vector3D_Field2D_run σ v f vv fv :
  σ !! v = Some (OVector3D vv) → σ !! f = Some (OField2D fv) →
  V_dot_Grad_Vector3D_Field2D v f σ
  = Some (advect (contravariant_of vv) fv, σ).
Proof.
  intros Hv Hf. unfold V_dot_Grad_Vector3D_Field2D.
  by run_converted3D (contravariant_of vv) Hv.
Qed.

Lemma V_dot_Grad_Vector3D_Field3D_run σ v f vv fv :
  σ !! v = Some (OVector3D vv) → σ !! f = Some (OField3D fv) →
  V_dot_Grad_Vector3D_Field3D v f σ
  = Some (advect (contravariant_of vv) fv, σ).
Proof.
  intros Hv Hf. unfold V_dot_Grad_Vector3D_Field3D.
  by run_converted3D (contravariant_of vv) Hv.
Qed.

(** X1.  With a scalar target, each of the four [V_dot_Grad(v, f)] overloads
    returns the upwind derivative of [f] along the contravariant form of
    [v], [VDDX(vcn.x, f) + VDDY(vcn.y, f) + VDDZ(vcn.z, f)]: the same
    expression the vector-target overloads start each component from, with
    no Christoffel term. *)
Theorem X1_V_dot_Grad_scalar_target σ :
  (∀ v f vv fv,
     σ !! v = Some (OVector2D vv) → σ !! f = Some (OField2D fv) →
     V_dot_Grad_Vector2D_Field2D v f σ
     = Some (advect (contravariant_of vv) fv, σ))
  ∧ (∀ v f vv fv,
     σ !! v = Some (OVector2D vv) → σ !! f = Some (OField3D fv) →
     V_dot_Grad_Vector2D_Field3D v f σ
     = Some (advect (contravariant_of vv) fv, σ))
  ∧ (∀ v f vv fv,
     σ !! v = Some (OVector3D vv) → σ !! f = Some (OField2D fv) →
     V_dot_Grad_Vector3D_Field2D v f σ
     = Some (advect (contravariant_of vv) fv, σ))
  ∧ (∀ v f vv fv,
     σ !! v = Some (OVector3D vv) → σ !! f = Some (OField3D fv) →
     V_dot_Grad_Vector3D_Field3D v f σ
     = Some (advect (contravariant_of vv) fv, σ)).
Proof.
  split_and!; intros v f vv fv Hv Hf.
  - by apply V_dot_Grad_Vector2D_Field2D_run.
  - by apply V_dot_Grad_Vector2D_Field3D_run.
  - by apply V_dot_Grad_Vector3D_Field2D_run.
  - by apply V_dot_Grad_Vector3D_Field3D_run.
Qed.

(** X2.  The flux-method [Div(v, f)] has the shape of [Div(v)] with the flux
    derivatives in place of the first derivatives:
    [(FDDX(J vcn.x, f) + FDDY(J vcn.y, f) + FDDZ(J vcn.z, f)) / J], where
    the [Field3D] overload hands [method] on unchanged and resolves
    [CELL_DEFAULT] to [CELL_CENTRE]. *)
Theorem X2_Div_flux_overloads σ :
  (∀ v f vv fv,
     σ !! v = Some (OVector2D vv) → σ !! f = Some (OField2D fv) →
     let vcn := contravariant_of vv in
     let metric := coordinates mesh in
     Div_Vector2D_Field2D v f σ
     = Some ((FDDX (J metric * x vcn) fv + FDDY (J metric * y vcn) fv
              + FDDZ (J metric * z vcn) fv) / J metric, σ))
  ∧ (∀ v f vv fv method outloc,
     σ !! v = Some (OVector3D vv) → σ !! f = Some (OField3D fv) →
     let vcn := contravariant_of vv in
     let metric := coordinates mesh in
     let loc := if decide (outloc = CELL_DEFAULT) then CELL_CENTRE else outloc in
     Div_Vector3D_Field3D_method_outloc v f method outloc σ
     = Some ((FDDX (J metric * x vcn) fv method loc
              + FDDY (J metric * y vcn) fv method loc
              + FDDZ (J metric * z vcn) fv method loc) / J metric, σ)).
Proof.
  split.
  - intros v f vv fv Hv Hf. by apply Div_Vector2D_Field2D_run.
  - intros v f vv fv method outloc Hv Hf.
    by apply Div_Vector3D_Field3D_method_outloc_run.
Qed.

(** X3.  The two-argument [Div(v, f)] on a [Vector3D] is the flux divergence
    with [DIFF_DEFAULT] at [CELL_CENTRE], in either order of the last two
    arguments: the default location goes through the four-argument overload
    and is resolved there. *)
Theorem X3_Div_flux_two_arguments v f σ :
  Div_Vector3D_Field3D v f σ
  = Div_Vector3D_Field3D_method_outloc v f DIFF_DEFAULT CELL_CENTRE σ
  ∧ Div_Vector3D_Field3D v f σ
    = Div_Vector3D_Field3D_outloc_method v f CELL_CENTRE DIFF_DEFAULT σ.
Proof.
  assert (Div_Vector3D_Field3D v f σ
          = Div_Vector3D_Field3D_method_outloc v f DIFF_DEFAULT CELL_CENTRE σ)
    as Heq.
  { unfold Div_Vector3D_Field3D.
    transitivity
      (Div_Vector3D_Field3D_method_outloc v f DIFF_DEFAULT CELL_DEFAULT σ).
    - unfold Div_Vector3D_Field3D_method_outloc. apply call_call.
    - reflexivity. }
  split; [exact Heq|]. rewrite Heq.
  unfold Div_Vector3D_Field3D_outloc_method, Div_Vector3D_Field3D_method_outloc.
  symmetry. apply call_call.
Qed.

(** X4.  Asking for the location the default resolves to changes nothing:
    [Div] on a [Vector3D] (plain and flux) with [CELL_DEFAULT] is [Div] with
    [CELL_CENTRE], on every store; [Grad] on a [Field3D] with any of its
    three locations replaced by what it resolves to is the same [Grad]; and
    the one-location [Grad(f, CELL_DEFAULT)] is [Grad(f, f.getLocation())],
    provided the location of [f] is not the meta-location [CELL_VSHIFT]. *)
Theorem X4_default_location_idempotent σ :
  (∀ v, Div_Vector3D v CELL_DEFAULT σ = Div_Vector3D v CELL_CENTRE σ)
  ∧ (∀ v f method,
      Div_Vector3D_Field3D_method_outloc v f method CELL_DEFAULT σ
      = Div_Vector3D_Field3D_method_outloc v f method CELL_CENTRE σ)
  ∧ (∀ f fv outloc_x outloc_y outloc_z,
      σ !! f = Some (OField3D fv) →
      let resolve outloc :=
        if decide (outloc = CELL_DEFAULT) then getLocation fv else outloc in
      Grad_Field3D_xyz f outloc_x outloc_y outloc_z σ
      = Grad_Field3D_xyz f (resolve outloc_x) (resolve outloc_y)
          (resolve outloc_z) σ)
  ∧ (∀ f fv,
      σ !! f = Some (OField3D fv) → getLocation fv ≠ CELL_VSHIFT →
      Grad_Field3D f CELL_DEFAULT σ = Grad_Field3D f (getLocation fv) σ).
Proof.
  assert (∀ loc outloc, default_to loc (default_to loc outloc)
                        = default_to loc outloc) as Hidem.
  { intros loc outloc. unfold default_to.
    destruct (decide (outloc = CELL_DEFAULT)) as [->|Hne].
    - by destruct (decide (loc = CELL_DEFAULT)).
    - by destruct (decide (outloc = CELL_DEFAULT)). }
  split_and!; [done | done | |].
  - intros f fv lx ly lz Hf resolve.
    rewrite !(Grad_Field3D_xyz_run _ _ _ _ _ _ Hf).
    subst resolve. cbv beta.
    change (if decide (lx = CELL_DEFAULT) then getLocation fv else lx)
      with (default_to (getLocation fv) lx).
    change (if decide (ly = CELL_DEFAULT) then getLocation fv else ly)
      with (default_to (getLocation fv) ly).
    change (if decide (lz = CELL_DEFAULT) then getLocation fv else lz)
      with (default_to (getLocation fv) lz).
    by rewrite !Hidem.
  - intros f fv Hf Hloc. rewrite !(Grad_Field3D_run _ _ _ _ Hf).
    unfold expand_VSHIFT.
    rewrite (decide_False (P := getLocation fv = CELL_VSHIFT)) by done.
    simpl. rewrite !(Grad_Field3D_xyz_run _ _ _ _ _ _ Hf).
    change (default_to (getLocation fv) CELL_DEFAULT) with (getLocation fv).
    unfold default_to. by destruct (decide (getLocation fv = CELL_DEFAULT)).
Qed.

(** X5.  Self-advection [V_dot_Grad(v, v)]: with one object as velocity and
    as target, the velocity is the contravariant form of [v] while the
    target is [v] as the caller holds it, so the branch is taken on the flag
    [v] has before the call and the result has the kind of [v]. *)
Theorem X5_V_dot_Grad_self_advection σ :
  (∀ v vv,
     σ !! v = Some (OVector3D vv) →
     V_dot_Grad_Vector3D_Vector3D v v σ
     = Some (V_dot_Grad_value (coordinates mesh) (contravariant_of vv) vv, σ)
     ∧ covariant <$> (fst <$> V_dot_Grad_Vector3D_Vector3D v v σ)
       = Some (covariant vv))
  ∧ (∀ v vv,
     σ !! v = Some (OVector2D vv) →
     V_dot_Grad_Vector2D_Vector2D v v σ
     = Some (V_dot_Grad_value (coordinates mesh) (contravariant_of vv) vv, σ)
     ∧ covariant <$> (fst <$> V_dot_Grad_Vector2D_Vector2D v v σ)
       = Some (covariant vv)).
Proof.
  split; intros v vv Hv.
  - by rewrite (V_dot_Grad_Vector3D_Vector3D_run _ _ _ _ _ Hv Hv).
  - by rewrite (V_dot_Grad_Vector2D_Vector2D_run _ _ _ _ _ Hv Hv).
Qed.

(** X6.  [Grad_perp] from [Grad]: the x component of [Grad_perp(f)] is the x
    component of [Grad(f)] minus (1/(J Bxy))^2 g_12 times the y component
    of [Grad(f)] taken at the x output location, and likewise z with g_23
    and the y component taken at the z output location; [outloc_y] plays no
    part. *)
Theorem X6_Grad_perp_from_Grad σ f fv outloc_x outloc_y outloc_z :
  σ !! f = Some (OField3D fv) →
  let metric := coordinates mesh in
  let inv_JB := Field3D_of_Field2D (real_1 / (J metric * Bxy metric)) in
  ∃ gp gx gz,
    Grad_perp f outloc_x outloc_y outloc_z σ = Some (gp, σ)
    ∧ Grad_Field3D_xyz f outloc_x outloc_x outloc_z σ = Some (gx, σ)
    ∧ Grad_Field3D_xyz f outloc_x outloc_z outloc_z σ = Some (gz, σ)
    ∧ x gp = x gx - inv_JB * inv_JB * g_12 metric * y gx
    ∧ z gp = z gz - inv_JB * inv_JB * g_23 metric * y gz
    ∧ covariant gp = covariant gx.
Proof.
  intros Hf metric inv_JB. eexists _, _, _. split_and!.
  - by apply Grad_perp_run.
  - by apply Grad_Field3D_xyz_run.
  - by apply Grad_Field3D_xyz_run.
  - done.
  - done.
  - done.
Qed.
End vecops.

(** ** The claims at work on the symbolic library *)


(** The symbolic library keeps the location contract. *)
Lemma Symbolic_location_laws :
  LocationLaws (BoutReal:=Z) (Field2D:=Symbolic.expr)
    (Field3D:=Symbolic.field3d) (DIFF_METHOD:=Symbolic.method).
Proof.
  split; try done.
  - intros f l. by destruct l.
  - intros f l. by destruct l.
  - intros f l. by destruct l.
  - intros v f m l Hl. by destruct l.
  - intros v loc (Hx & Hy & Hz). unfold located_at. simpl.
    unfold Symbolic.convert3. by destruct (decide (covariant v = true)).
Qed.


(** C2 on the sample store, one call per overload. *)
Lemma C2_V_dot_Grad_branch_on_target_witness :
  (Symbolic.store !! Symbolic.ref_u = Some (OVector2D Symbolic.u)
   ∧ Symbolic.store !! Symbolic.ref_v = Some (OVector3D Symbolic.v)
   ∧ Symbolic.store !! Symbolic.ref_a = Some (OVector3D Symbolic.a))
  ∧ V_dot_Grad_Vector2D_Vector2D Symbolic.mesh_plain Symbolic.ref_u
      Symbolic.ref_u Symbolic.store
    = Some (V_dot_Grad_value Symbolic.metric (contravariant_of Symbolic.u)
              Symbolic.u, Symbolic.store)
  ∧ V_dot_Grad_Vector2D_Vector3D Symbolic.mesh_plain Symbolic.ref_u
      Symbolic.ref_a Symbolic.store
    = Some (V_dot_Grad_value Symbolic.metric (contravariant_of Symbolic.u)
              Symbolic.a, Symbolic.store)
  ∧ V_dot_Grad_Vector3D_Vector2D Symbolic.mesh_plain Symbolic.ref_v
      Symbolic.ref_u Symbolic.store
    = Some (V_dot_Grad_value Symbolic.metric (contravariant_of Symbolic.v)
              Symbolic.u, Symbolic.store)
  ∧ V_dot_Grad_Vector3D_Vector3D Symbolic.mesh_plain Symbolic.ref_v
      Symbolic.ref_a Symbolic.store
    = Some (V_dot_Grad_value Symbolic.metric (contravariant_of Symbolic.v)
              Symbolic.a, Symbolic.store).
Proof.
  destruct (C2_V_dot_Grad_branch_on_target Symbolic.mesh_plain Symbolic.store)
    as (H22 & H23 & H32 & H33).
  split; [by split_and!|]. split; [|split; [|split]].
  - exact (H22 Symbolic.ref_u Symbolic.ref_u Symbolic.u Symbolic.u
             eq_refl eq_refl).
  - exact (H23 Symbolic.ref_u Symbolic.ref_a Symbolic.u Symbolic.a
             eq_refl eq_refl).
  - exact (H32 Symbolic.ref_v Symbolic.ref_u Symbolic.v Symbolic.u
             eq_refl eq_refl).
  - exact (H33 Symbolic.ref_v Symbolic.ref_a Symbolic.v Symbolic.a
             eq_refl eq_refl).
Defined.

(** C3 on the sample store: [Curl] of [a] without and with
    [ShiftXderivs], and [Curl] of the two-dimensional [u]. *)
Lemma C3_Curl_shift_torsion_witness :
  (Symbolic.store !! Symbolic.ref_a = Some (OVector3D Symbolic.a)
   ∧ Symbolic.store !! Symbolic.ref_u = Some (OVector2D Symbolic.u))
  ∧ Curl_Vector3D_xyz Symbolic.mesh_plain Symbolic.ref_a
      CELL_XLOW CELL_YLOW CELL_ZLOW Symbolic.store
    = Some (Curl_plain3D Symbolic.mesh_plain Symbolic.a
              CELL_XLOW CELL_YLOW CELL_ZLOW, Symbolic.store)
  ∧ z <$> (fst <$> Curl_Vector3D_xyz Symbolic.mesh_shifted Symbolic.ref_a
                     CELL_XLOW CELL_YLOW CELL_ZLOW Symbolic.store)
    = Some (z (Curl_plain3D Symbolic.mesh_shifted Symbolic.a
                 CELL_XLOW CELL_YLOW CELL_ZLOW)
            - Symbolic.Var "ShiftTorsion" * z Symbolic.a / Symbolic.Var "J")%F
  ∧ Curl_Vector2D Symbolic.mesh_plain Symbolic.ref_u CELL_DEFAULT
      Symbolic.store
    = Some (Curl_plain2D Symbolic.mesh_plain (covariant_of Symbolic.u),
            Symbolic.store).
Proof.
  split; [by split|]. split; [|split].
  - exact (proj1 (C3_Curl_shift_torsion Symbolic.mesh_plain Symbolic.store)
             Symbolic.ref_a Symbolic.a CELL_XLOW CELL_YLOW CELL_ZLOW eq_refl).
  - by rewrite (proj1 (C3_Curl_shift_torsion Symbolic.mesh_shifted
                         Symbolic.store)
                  Symbolic.ref_a Symbolic.a CELL_XLOW CELL_YLOW CELL_ZLOW
                  eq_refl).
  - exact (proj1 (proj2 (C3_Curl_shift_torsion Symbolic.mesh_plain
                           Symbolic.store))
             Symbolic.ref_u Symbolic.u CELL_DEFAULT eq_refl).
Defined.

(** C4 on the sample store: [Div] of [v] and of [u]. *)
Lemma C4_Div_flux_form_witness :
  (Symbolic.store !! Symbolic.ref_v = Some (OVector3D Symbolic.v)
   ∧ Symbolic.store !! Symbolic.ref_u = Some (OVector2D Symbolic.u))
  ∧ Div_Vector3D Symbolic.mesh_plain Symbolic.ref_v CELL_XLOW Symbolic.store
    = Some ((DDX (Symbolic.Var "J" * x Symbolic.v) CELL_XLOW
             + DDY (Symbolic.Var "J" * y Symbolic.v) CELL_XLOW
             + DDZ (Symbolic.Var "J" * z Symbolic.v) CELL_XLOW)
            / Symbolic.Var "J", Symbolic.store)%F
  ∧ Div_Vector2D Symbolic.mesh_plain Symbolic.ref_u CELL_DEFAULT
      Symbolic.store
    = Some ((DDX (Symbolic.Var "J" * x Symbolic.u)
             + DDY (Symbolic.Var "J" * y Symbolic.u)
             + DDZ (Symbolic.Var "J" * z Symbolic.u))
            / Symbolic.Var "J", Symbolic.store)%F.
Proof.
  split; [by split|]. split.
  - exact (proj1 (C4_Div_flux_form Symbolic.mesh_plain Symbolic.store)
             Symbolic.ref_v Symbolic.v CELL_XLOW eq_refl).
  - exact (proj2 (C4_Div_flux_form Symbolic.mesh_plain Symbolic.store)
             Symbolic.ref_u Symbolic.u CELL_DEFAULT eq_refl).
Defined.

(** C6 on the sample store: [Grad] of [f] per axis and with
    [CELL_VSHIFT], and [Grad] of the two-dimensional [h]. *)
Lemma C6_Grad_components_witness :
  (Symbolic.store !! Symbolic.ref_f = Some (OField3D Symbolic.f)
   ∧ Symbolic.store !! Symbolic.ref_h = Some (OField2D Symbolic.h))
  ∧ Grad_Field3D_xyz Symbolic.ref_f CELL_CENTRE CELL_DEFAULT CELL_ZLOW
      Symbolic.store
    = Some (mkVector (DDX Symbolic.f CELL_CENTRE) (DDY Symbolic.f CELL_XLOW)
                     (DDZ Symbolic.f CELL_ZLOW) true, Symbolic.store)
  ∧ Grad_Field3D Symbolic.ref_f CELL_VSHIFT Symbolic.store
    = Some (mkVector (DDX Symbolic.f CELL_XLOW) (DDY Symbolic.f CELL_YLOW)
                     (DDZ Symbolic.f CELL_ZLOW) true, Symbolic.store)
  ∧ Grad_Field2D Symbolic.ref_h CELL_YLOW Symbolic.store
    = Some (mkVector (DDX Symbolic.h) (DDY Symbolic.h) (DDZ Symbolic.h) true,
            Symbolic.store).
Proof.
  destruct (C6_Grad_components (BoutReal:=Z) (DIFF_METHOD:=Symbolic.method)
              Symbolic.store) as (Hxyz & H3D & H2D).
  split; [by split|]. split; [|split].
  - exact (Hxyz Symbolic.ref_f Symbolic.f CELL_CENTRE CELL_DEFAULT CELL_ZLOW
             eq_refl).
  - exact (H3D Symbolic.ref_f Symbolic.f CELL_VSHIFT eq_refl).
  - exact (H2D Symbolic.ref_h Symbolic.h CELL_YLOW eq_refl).
Defined.

(** C7 on the sample store: [Grad_perp] of [f]. *)
Lemma C7_Grad_perp_components_witness :
  Symbolic.store !! Symbolic.ref_f = Some (OField3D Symbolic.f)
  ∧ ∃ r, Grad_perp Symbolic.mesh_plain Symbolic.ref_f
           CELL_DEFAULT CELL_DEFAULT CELL_DEFAULT Symbolic.store
         = Some (r, Symbolic.store)
    ∧ covariant r = true
    ∧ y r = Symbolic.mkField3D CELL_CENTRE (Symbolic.Real 0)
    ∧ Symbolic.data (x r)
      = Symbolic.Sub
          (Symbolic.DD Xdir (Symbolic.Var "f") (Some CELL_XLOW))
          (Symbolic.Mul
             (Symbolic.Mul
                (Symbolic.Mul
                   (Symbolic.Div (Symbolic.Real 1)
                      (Symbolic.Mul (Symbolic.Var "J") (Symbolic.Var "Bxy")))
                   (Symbolic.Div (Symbolic.Real 1)
                      (Symbolic.Mul (Symbolic.Var "J") (Symbolic.Var "Bxy"))))
                (Symbolic.Var "g_12"))
             (Symbolic.DD Ydir (Symbolic.Var "f") (Some CELL_XLOW))).
Proof.
  split; [reflexivity|].
  destruct (C7_Grad_perp_components Symbolic.mesh_plain Symbolic.store
              Symbolic.ref_f Symbolic.f CELL_DEFAULT CELL_DEFAULT CELL_DEFAULT
              eq_refl) as (r & Hrun & Hcov & Hy & Hx & Hz).
  exists r. split_and!; [exact Hrun | exact Hcov | exact Hy |].
  by rewrite Hx.
Defined.

(** C8 on the sample store: [Div] of the covariant [a] works on a raised
    copy of [a], and the store it returns is the sample store. *)
Lemma C8_operands_not_mutated_witness :
  Div_Vector3D Symbolic.mesh_shifted Symbolic.ref_a CELL_DEFAULT
    Symbolic.store
  = Some ((DDX (Symbolic.Var "J" * x (contravariant_of Symbolic.a))
             CELL_CENTRE
           + DDY (Symbolic.Var "J" * y (contravariant_of Symbolic.a))
               CELL_CENTRE
           + DDZ (Symbolic.Var "J" * z (contravariant_of Symbolic.a))
               CELL_CENTRE) / Symbolic.Var "J",
          take 5 (Symbolic.store
                  ++ [OVector3D (contravariant_of Symbolic.a)]))%F
  ∧ take 5 (Symbolic.store ++ [OVector3D (contravariant_of Symbolic.a)])
    = Symbolic.store.
Proof.
  pose proof (C8_operands_not_mutated (BoutReal:=Z)
                (DIFF_METHOD:=Symbolic.method) Symbolic.mesh_shifted)
    as (_ & _ & _ & _ & _ & HDiv & _).
  assert (Div_Vector3D Symbolic.mesh_shifted Symbolic.ref_a CELL_DEFAULT
            Symbolic.store
          = Some ((DDX (Symbolic.Var "J" * x (contravariant_of Symbolic.a))
                     CELL_CENTRE
                   + DDY (Symbolic.Var "J" * y (contravariant_of Symbolic.a))
                       CELL_CENTRE
                   + DDZ (Symbolic.Var "J" * z (contravariant_of Symbolic.a))
                       CELL_CENTRE) / Symbolic.Var "J",
                  take 5 (Symbolic.store
                          ++ [OVector3D (contravariant_of Symbolic.a)]))%F)
    as Hrun by reflexivity.
  split; [exact Hrun|].
  exact (HDiv Symbolic.ref_a CELL_DEFAULT _ _ _ Hrun).
Defined.

(** ** The claims about mesh.hxx *)

Section mesh_claims.
Context {BoutReal Field2D Field3D Coordinates : Type}.
Variable default_coordinates : Mesh_hxx.Mesh BoutReal Field2D Field3D → Coordinates.
Variable const2D : BoutReal → Field2D.
Variable const3D : BoutReal → Field3D.
Variable zero : BoutReal.

Abbreviation Mesh' := (Mesh_hxx.Mesh BoutReal Field2D Field3D).
Abbreviation World' := (Mesh_hxx.World BoutReal Field2D Field3D Coordinates).
Abbreviation coordinates' := (Mesh_hxx.coordinates default_coordinates).
Abbreviation coordinates_calls' :=
  (Mesh_hxx.coordinates_calls default_coordinates).

Lemma coordinates_not_null (w : World') :
  (coordinates' w).1 ≠ Mesh_hxx.nullptr
  ∧ Mesh_hxx.coords (Mesh_hxx.this (coordinates' w).2) = (coordinates' w).1.
Proof.
  unfold Mesh_hxx.coordinates.
  destruct (decide (Mesh_hxx.coords (Mesh_hxx.this w) ≠ Mesh_hxx.nullptr));
    simpl; [done|]. by split.
Qed.

Lemma coordinates_cached (w : World') :
  Mesh_hxx.coords (Mesh_hxx.this w) ≠ Mesh_hxx.nullptr →
  coordinates' w = (Mesh_hxx.coords (Mesh_hxx.this w), w).
Proof.
  intros Hset. unfold Mesh_hxx.coordinates.
  by destruct (decide (Mesh_hxx.coords (Mesh_hxx.this w) ≠ Mesh_hxx.nullptr)).
Qed.

Lemma coordinates_again (w : World') :
  coordinates' (coordinates' w).2 = ((coordinates' w).1, (coordinates' w).2).
Proof.
  destruct (coordinates_not_null w) as [Hnn Hp].
  rewrite coordinates_cached; by rewrite Hp.
Qed.

Lemma coordinates_calls_cached (n : nat) (w : World') :
  Mesh_hxx.coords (Mesh_hxx.this w) ≠ Mesh_hxx.nullptr →
  coordinates_calls' n w
  = (replicate n (Mesh_hxx.coords (Mesh_hxx.this w)), w).
Proof.
  intros Hset. induction n as [|n IH]; simpl; [done|].
  by rewrite (coordinates_cached _ Hset), IH.
Qed.

(** C9.  [coordinates()] never returns [nullptr] and leaves the pointer it
    returns in [coords]; a second call returns the same pointer and changes
    nothing; on a mesh whose [coords] is null the first call allocates one
    default object, and it is the one the pointer refers to; on a mesh
    whose [coords] is set nothing is allocated; any number of calls in a row
    return that one pointer and end in the state the first call left, so at
    most one object is ever created per mesh. *)
Theorem C9_coordinates_created_once (w : World') :
  let p := (Mesh_hxx.coordinates default_coordinates w).1 in
  let w1 := (Mesh_hxx.coordinates default_coordinates w).2 in
  p ≠ Mesh_hxx.nullptr
  ∧ Mesh_hxx.coords (Mesh_hxx.this w1) = p
  ∧ Mesh_hxx.coordinates default_coordinates w1 = (p, w1)
  ∧ (Mesh_hxx.coords (Mesh_hxx.this w) = Mesh_hxx.nullptr →
     Mesh_hxx.heap w1
     = Mesh_hxx.heap w ++ [default_coordinates (Mesh_hxx.this w)]
     ∧ Mesh_hxx.heap w1 !! (p - 1)
       = Some (default_coordinates (Mesh_hxx.this w)))
  ∧ (Mesh_hxx.coords (Mesh_hxx.this w) ≠ Mesh_hxx.nullptr →
     p = Mesh_hxx.coords (Mesh_hxx.this w) ∧ w1 = w)
  ∧ (∀ n, Mesh_hxx.coordinates_calls default_coordinates (S n) w
          = (replicate (S n) p, w1)).
Proof.
  intros p w1. destruct (coordinates_not_null w) as [Hnn Hp].
  split_and!; [done | done | apply coordinates_again | | |].
  - intros Hnull. unfold p, w1, Mesh_hxx.coordinates.
    destruct (decide (Mesh_hxx.coords (Mesh_hxx.this w) ≠ Mesh_hxx.nullptr));
      [done|]. simpl. split; [done|].
    rewrite Nat.sub_0_r. by apply list_lookup_middle.
  - intros Hset. unfold p, w1. by rewrite (coordinates_cached _ Hset).
  - intros n. unfold p, w1. simpl.
    destruct (coordinates' w) as [q w2]; simpl in *.
    rewrite coordinates_calls_cached by (by rewrite Hp).
    by rewrite Hp.
Qed.

(** C10.  [get] on a [Vector2D] or a [Vector3D] returns status 0 whatever
    the name and the source; when no component is in the source the three
    components are the field set to [0.0] and the status is still 0; the
    [int], [BoutReal], [Field2D] and [Field3D] overloads return a non-zero
    status for a name that is not in the source; so the status of a vector
    [get] is the same on any two meshes and tells nothing about whether the
    variable was found. *)
Theorem C10_get_vector_status (m : Mesh') :
  (∀ var name, (Mesh_hxx.get_Vector2D const2D zero m var name).1 = 0%Z)
  ∧ (∀ var name, (Mesh_hxx.get_Vector3D const3D zero m var name).1 = 0%Z)
  ∧ (∀ var name,
      (∀ name', Mesh_hxx.source m
                ≫= (λ s, Mesh_hxx.fields2D s !! name') = None) →
      Mesh_hxx.get_Vector2D const2D zero m var name
      = (0%Z, mkVector (const2D zero) (const2D zero) (const2D zero)
                (covariant var)))
  ∧ (∀ var name,
      (∀ name', Mesh_hxx.source m
                ≫= (λ s, Mesh_hxx.fields3D s !! name') = None) →
      Mesh_hxx.get_Vector3D const3D zero m var name
      = (0%Z, mkVector (const3D zero) (const3D zero) (const3D zero)
                (covariant var)))
  ∧ (∀ ival name,
      Mesh_hxx.source m ≫= (λ s, Mesh_hxx.ints s !! name) = None →
      (Mesh_hxx.get_int m ival name).1 ≠ 0%Z)
  ∧ (∀ rval name,
      Mesh_hxx.source m ≫= (λ s, Mesh_hxx.reals s !! name) = None →
      (Mesh_hxx.get_BoutReal m rval name).1 ≠ 0%Z)
  ∧ (∀ var name def,
      Mesh_hxx.source m ≫= (λ s, Mesh_hxx.fields2D s !! name) = None →
      (Mesh_hxx.get_Field2D const2D m var name def).1 ≠ 0%Z)
  ∧ (∀ var name def communicate,
      Mesh_hxx.source m ≫= (λ s, Mesh_hxx.fields3D s !! name) = None →
      (Mesh_hxx.get_Field3D const3D m var name def communicate).1 ≠ 0%Z)
  ∧ (∀ (m' : Mesh') var2 var3 name,
      (Mesh_hxx.get_Vector2D const2D zero m var2 name).1
      = (Mesh_hxx.get_Vector2D const2D zero m' var2 name).1
      ∧ (Mesh_hxx.get_Vector3D const3D zero m var3 name).1
        = (Mesh_hxx.get_Vector3D const3D zero m' var3 name).1).
Proof.
  assert (∀ (m0 : Mesh') var name, (Mesh_hxx.get_Vector2D const2D zero m0 var name).1 = 0%Z) as H2
    by (intros m0 var name; unfold Mesh_hxx.get_Vector2D;
        by destruct (covariant var)).
  assert (∀ (m0 : Mesh') var name, (Mesh_hxx.get_Vector3D const3D zero m0 var name).1 = 0%Z) as H3
    by (intros m0 var name; unfold Mesh_hxx.get_Vector3D;
        by destruct (covariant var)).
  split_and!.
  - apply H2.
  - apply H3.
  - intros var name Hmiss.
    unfold Mesh_hxx.get_Vector2D, Mesh_hxx.get_Field2D.
    rewrite !Hmiss. by destruct (covariant var).
  - intros var name Hmiss.
    unfold Mesh_hxx.get_Vector3D, Mesh_hxx.get_Field3D.
    rewrite !Hmiss. by destruct (covariant var).
  - intros ival name Hmiss. unfold Mesh_hxx.get_int. by rewrite Hmiss.
  - intros rval name Hmiss. unfold Mesh_hxx.get_BoutReal. by rewrite Hmiss.
  - intros var name def Hmiss. unfold Mesh_hxx.get_Field2D. by rewrite Hmiss.
  - intros var name def c Hmiss. unfold Mesh_hxx.get_Field3D. by rewrite Hmiss.
  - intros m' var2 var3 name. by rewrite !H2, !H3.
Qed.
End mesh_claims.

(** C9 on a bare mesh (three calls, one object) and on a mesh whose
    [coords] is set. *)
Lemma C9_coordinates_created_once_witness :
  Mesh_hxx.coords Mesh_hxx.bare_mesh = Mesh_hxx.nullptr
  ∧ Mesh_hxx.coordinates (λ _, Symbolic.metric)
      (Mesh_hxx.mkWorld Mesh_hxx.bare_mesh [])
    = (1, Mesh_hxx.mkWorld (Mesh_hxx.mkMesh None 1) [Symbolic.metric])
  ∧ Mesh_hxx.heap
      (Mesh_hxx.coordinates (λ _, Symbolic.metric)
         (Mesh_hxx.mkWorld Mesh_hxx.bare_mesh [])).2
    = [] ++ [Symbolic.metric]
  ∧ Mesh_hxx.coordinates_calls (λ _, Symbolic.metric) 3
      (Mesh_hxx.mkWorld Mesh_hxx.bare_mesh [])
    = ([1; 1; 1], Mesh_hxx.mkWorld (Mesh_hxx.mkMesh None 1) [Symbolic.metric])
  ∧ Mesh_hxx.coords (Mesh_hxx.mkMesh (Some Mesh_hxx.no_data) 1)
    ≠ Mesh_hxx.nullptr
  ∧ (Mesh_hxx.coordinates (λ _, Symbolic.metric)
       (Mesh_hxx.mkWorld (Mesh_hxx.mkMesh (Some Mesh_hxx.no_data) 1)
          [Symbolic.metric])).2
    = Mesh_hxx.mkWorld (Mesh_hxx.mkMesh (Some Mesh_hxx.no_data) 1)
        [Symbolic.metric].
Proof.
  destruct (C9_coordinates_created_once (λ _, Symbolic.metric)
              (Mesh_hxx.mkWorld Mesh_hxx.bare_mesh []))
    as (_ & _ & _ & Hnew & _ & Hcalls).
  destruct (C9_coordinates_created_once (λ _, Symbolic.metric)
              (Mesh_hxx.mkWorld (Mesh_hxx.mkMesh (Some Mesh_hxx.no_data) 1)
                 [Symbolic.metric]))
    as (_ & _ & _ & _ & Hset & _).
  split; [reflexivity|]. split; [reflexivity|]. split.
  - exact (proj1 (Hnew eq_refl)).
  - split; [exact (Hcalls 2)|]. split.
    + discriminate.
    + refine (proj2 (Hset _)). discriminate.
Defined.

(** C10 on a mesh without a source and on a mesh whose source holds
    nothing. *)
Lemma C10_get_vector_status_witness :
  (∀ name', Mesh_hxx.source Mesh_hxx.bare_mesh
            ≫= (λ s, Mesh_hxx.fields3D s !! name') = None)
  ∧ Mesh_hxx.get_Vector3D Field3D_of_BoutReal 0%Z Mesh_hxx.bare_mesh
      Symbolic.a "B"
    = (0%Z, mkVector (Symbolic.mkField3D CELL_CENTRE (Symbolic.Real 0))
              (Symbolic.mkField3D CELL_CENTRE (Symbolic.Real 0))
              (Symbolic.mkField3D CELL_CENTRE (Symbolic.Real 0)) true)
  ∧ (∀ name', Mesh_hxx.source Mesh_hxx.bare_mesh
              ≫= (λ s, Mesh_hxx.fields2D s !! name') = None)
  ∧ Mesh_hxx.get_Vector2D Symbolic.Real 0%Z Mesh_hxx.bare_mesh
      Symbolic.u "B"
    = (0%Z, mkVector (Symbolic.Real 0) (Symbolic.Real 0) (Symbolic.Real 0)
              false)
  ∧ Mesh_hxx.source Mesh_hxx.empty_mesh
    ≫= (λ s, Mesh_hxx.ints s !! "nx") = None
  ∧ (Mesh_hxx.get_int Mesh_hxx.empty_mesh 7 "nx").1 ≠ 0%Z
  ∧ Mesh_hxx.source Mesh_hxx.empty_mesh
    ≫= (λ s, Mesh_hxx.fields3D s !! "B_x") = None
  ∧ (Mesh_hxx.get_Field3D Field3D_of_BoutReal Mesh_hxx.empty_mesh
       (x Symbolic.a) "B_x" 0%Z true).1 ≠ 0%Z.
Proof.
  destruct (C10_get_vector_status Symbolic.Real Field3D_of_BoutReal 0%Z
              Mesh_hxx.bare_mesh)
    as (_ & _ & H2 & H3 & _).
  destruct (C10_get_vector_status Symbolic.Real Field3D_of_BoutReal 0%Z
              Mesh_hxx.empty_mesh)
    as (_ & _ & _ & _ & Hint & _ & _ & HF3 & _).
  split; [intros name'; reflexivity|]. split.
  - exact (H3 Symbolic.a "B" (λ name', eq_refl)).
  - split; [intros name'; reflexivity|]. split.
    + exact (H2 Symbolic.u "B" (λ name', eq_refl)).
    + split; [reflexivity|]. split.
      * exact (Hint 7%Z "nx" eq_refl).
      * split; [reflexivity|].
        exact (HF3 (x Symbolic.a) "B_x" 0%Z true eq_refl).
Defined.

(** ** Further properties of mesh.hxx *)

Section mesh_extras.
Context {BoutReal Field2D Field3D Coordinates : Type}.
Variable default_coordinates : Mesh_hxx.Mesh BoutReal Field2D Field3D → Coordinates.
Variable const2D : BoutReal → Field2D.
Variable const3D : BoutReal → Field3D.
Variable zero : BoutReal.

Abbreviation World'' := (Mesh_hxx.World BoutReal Field2D Field3D Coordinates).

Lemma deref_after_coordinates (w : World'') q c :
  Mesh_hxx.deref w q = Some c →
  Mesh_hxx.deref (Mesh_hxx.coordinates default_coordinates w).2 q = Some c.
Proof.
  intros Hq. unfold Mesh_hxx.coordinates.
  destruct (decide (Mesh_hxx.coords (Mesh_hxx.this w) ≠ Mesh_hxx.nullptr));
    simpl; [done|].
  destruct q as [|i]; [done|]. simpl in *. by apply lookup_app_l_Some.
Qed.

Lemma coordinates_live (w : World'') :
  Mesh_hxx.coords_valid w →
  is_Some (Mesh_hxx.deref (Mesh_hxx.coordinates default_coordinates w).2
             (Mesh_hxx.coordinates default_coordinates w).1).
Proof.
  intros Hvalid. unfold Mesh_hxx.coordinates.
  destruct (decide (Mesh_hxx.coords (Mesh_hxx.this w) ≠ Mesh_hxx.nullptr))
    as [Hset|Hnull]; simpl.
  - by destruct Hvalid.
  - rewrite list_lookup_middle by done. by eexists.
Qed.

(** X7.  On a mesh whose [coords] is null or refers to an allocated object,
    [coordinates()] returns a pointer that refers to an allocated object and
    leaves [coords] so; it keeps every object allocated before at its
    address and does not touch [source]; and every pointer returned by any
    number of calls in a row refers to an allocated object at the end. *)
Theorem X7_coordinates_points_to_live_object (w : World'') :
  Mesh_hxx.coords_valid w →
  let p := (Mesh_hxx.coordinates default_coordinates w).1 in
  let w1 := (Mesh_hxx.coordinates default_coordinates w).2 in
  is_Some (Mesh_hxx.deref w1 p)
  ∧ Mesh_hxx.coords_valid w1
  ∧ (∀ q c, Mesh_hxx.deref w q = Some c → Mesh_hxx.deref w1 q = Some c)
  ∧ Mesh_hxx.source (Mesh_hxx.this w1) = Mesh_hxx.source (Mesh_hxx.this w)
  ∧ (∀ n,
      Forall (λ q, is_Some
                     (Mesh_hxx.deref
                        (Mesh_hxx.coordinates_calls default_coordinates n w).2
                        q))
        (Mesh_hxx.coordinates_calls default_coordinates n w).1).
Proof.
  intros Hvalid p w1.
  pose proof (coordinates_live w Hvalid) as Hlive. fold p w1 in Hlive.
  destruct (coordinates_not_null default_coordinates w) as [Hnn Hp].
  fold p w1 in Hnn, Hp.
  split_and!.
  - done.
  - right. by rewrite Hp.
  - intros q c. apply deref_after_coordinates.
  - unfold w1, Mesh_hxx.coordinates.
    by destruct (decide (Mesh_hxx.coords (Mesh_hxx.this w)
                         ≠ Mesh_hxx.nullptr)).
  - intros [|n]; [by constructor|]. simpl.
    destruct (Mesh_hxx.coordinates default_coordinates w) as [q w2] eqn:Hrun.
    simpl in *. subst p w1.
    rewrite (coordinates_calls_cached default_coordinates n w2)
      by (by rewrite Hp).
    simpl. rewrite Hp.
    constructor; [done|]. by apply Forall_replicate.
Qed.

Lemma append_same_prefix (p a b : string) : p +:+ a = p +:+ b → a = b.
Proof. induction p as [|c p IH]; simpl; [done|]. intros [= H]. auto. Qed.

(** X8.  [get] on a vector picks its three variables by the kind of [var]:
    from a source that holds a vector under the covariant names
    [name_x], [name_y], [name_z], a covariant [var] receives the three
    fields, while a contravariant [var] looks for [namex], [namey], [namez],
    finds none and receives three fields set to zero; the status is 0 and
    the kind of [var] is kept both times. *)
Theorem X8_get_vector_names_by_kind (name : string) (c : Mesh_hxx.pointer)
    (ints : gmap string Z) (reals : gmap string BoutReal) :
  (∀ (fields2D : gmap string Field2D) (fx fy fz : Field3D) var,
     Mesh_hxx.get_Vector3D const3D zero
       (Mesh_hxx.mkMesh
          (Some (Mesh_hxx.mkSource ints reals fields2D
                   {[ name +:+ "_x" := fx; name +:+ "_y" := fy;
                      name +:+ "_z" := fz ]})) c) var name
     = (0%Z, if covariant var then mkVector fx fy fz true
             else mkVector (const3D zero) (const3D zero) (const3D zero) false))
  ∧ (∀ (fields3D : gmap string Field3D) (fx fy fz : Field2D) var,
     Mesh_hxx.get_Vector2D const2D zero
       (Mesh_hxx.mkMesh
          (Some (Mesh_hxx.mkSource ints reals
                   {[ name +:+ "_x" := fx; name +:+ "_y" := fy;
                      name +:+ "_z" := fz ]} fields3D)) c) var name
     = (0%Z, if covariant var then mkVector fx fy fz true
             else mkVector (const2D zero) (const2D zero) (const2D zero) false)).
Proof.
  assert (∀ a b : string, a ≠ b → name +:+ a ≠ name +:+ b) as Hne
    by (intros a b Hab Heq; by apply Hab, (append_same_prefix name)).
  split.
  - intros f2 fx fy fz var.
    unfold Mesh_hxx.get_Vector3D, Mesh_hxx.get_Field3D. simpl.
    destruct (covariant var); simpl.
    + rewrite lookup_insert_eq.
      rewrite lookup_insert_ne, lookup_insert_eq by (by apply Hne).
      rewrite !lookup_insert_ne, lookup_singleton_eq by (by apply Hne).
      done.
    + rewrite !lookup_insert_ne, !lookup_singleton_ne by (by apply Hne).
      done.
  - intros f3 fx fy fz var.
    unfold Mesh_hxx.get_Vector2D, Mesh_hxx.get_Field2D. simpl.
    destruct (covariant var); simpl.
    + rewrite lookup_insert_eq.
      rewrite lookup_insert_ne, lookup_insert_eq by (by apply Hne).
      rewrite !lookup_insert_ne, lookup_singleton_eq by (by apply Hne).
      done.
    + rewrite !lookup_insert_ne, !lookup_singleton_ne by (by apply Hne).
      done.
Qed.
End mesh_extras.

(** ** The further properties at work on the sample data *)

(** X1 on the sample store, one call per overload. *)
Lemma X1_V_dot_Grad_scalar_target_witness :
  (Symbolic.store !! Symbolic.ref_u = Some (OVector2D Symbolic.u)
   ∧ Symbolic.store !! Symbolic.ref_a = Some (OVector3D Symbolic.a)
   ∧ Symbolic.store !! Symbolic.ref_h = Some (OField2D Symbolic.h)
   ∧ Symbolic.store !! Symbolic.ref_f = Some (OField3D Symbolic.f))
  ∧ V_dot_Grad_Vector2D_Field2D Symbolic.ref_u Symbolic.ref_h Symbolic.store
    = Some (Symbolic.Add
              (Symbolic.Add
                 (Symbolic.VDD Xdir (Symbolic.Var "ux") (Symbolic.Var "h"))
                 (Symbolic.VDD Ydir (Symbolic.Var "uy") (Symbolic.Var "h")))
              (Symbolic.VDD Zdir (Symbolic.Var "uz") (Symbolic.Var "h")),
            Symbolic.store)
  ∧ V_dot_Grad_Vector2D_Field3D Symbolic.ref_u Symbolic.ref_f Symbolic.store
    = Some (advect Symbolic.u Symbolic.f, Symbolic.store)
  ∧ V_dot_Grad_Vector3D_Field2D Symbolic.ref_a Symbolic.ref_h Symbolic.store
    = Some (advect (contravariant_of Symbolic.a) Symbolic.h, Symbolic.store)
  ∧ V_dot_Grad_Vector3D_Field3D Symbolic.ref_a Symbolic.ref_f Symbolic.store
    = Some (advect (contravariant_of Symbolic.a) Symbolic.f, Symbolic.store).
Proof.
  destruct (X1_V_dot_Grad_scalar_target Symbolic.store)
    as (H22 & H23 & H32 & H33).
  split; [by split_and!|]. split; [|split; [|split]].
  - exact (H22 Symbolic.ref_u Symbolic.ref_h Symbolic.u Symbolic.h
             eq_refl eq_refl).
  - exact (H23 Symbolic.ref_u Symbolic.ref_f Symbolic.u Symbolic.f
             eq_refl eq_refl).
  - exact (H32 Symbolic.ref_a Symbolic.ref_h Symbolic.a Symbolic.h
             eq_refl eq_refl).
  - exact (H33 Symbolic.ref_a Symbolic.ref_f Symbolic.a Symbolic.f
             eq_refl eq_refl).
Defined.

(** X2 on the sample store: the flux [Div] of [u] with [h] and of [v] with
    [f], the latter asked for at the Y-low face with a first-order upwind
    method. *)
Lemma X2_Div_flux_overloads_witness :
  (Symbolic.store !! Symbolic.ref_u = Some (OVector2D Symbolic.u)
   ∧ Symbolic.store !! Symbolic.ref_h = Some (OField2D Symbolic.h)
   ∧ Symbolic.store !! Symbolic.ref_v = Some (OVector3D Symbolic.v)
   ∧ Symbolic.store !! Symbolic.ref_f = Some (OField3D Symbolic.f))
  ∧ Div_Vector2D_Field2D Symbolic.mesh_plain Symbolic.ref_u Symbolic.ref_h
      Symbolic.store
    = Some ((FDDX (Symbolic.Var "J" * x Symbolic.u) Symbolic.h
             + FDDY (Symbolic.Var "J" * y Symbolic.u) Symbolic.h
             + FDDZ (Symbolic.Var "J" * z Symbolic.u) Symbolic.h)
            / Symbolic.Var "J", Symbolic.store)%F
  ∧ Div_Vector3D_Field3D_method_outloc Symbolic.mesh_plain Symbolic.ref_v
      Symbolic.ref_f Symbolic.M_U1 CELL_YLOW Symbolic.store
    = Some ((FDDX (Symbolic.Var "J" * x Symbolic.v) Symbolic.f
               Symbolic.M_U1 CELL_YLOW
             + FDDY (Symbolic.Var "J" * y Symbolic.v) Symbolic.f
                 Symbolic.M_U1 CELL_YLOW
             + FDDZ (Symbolic.Var "J" * z Symbolic.v) Symbolic.f
                 Symbolic.M_U1 CELL_YLOW)
            / Symbolic.Var "J", Symbolic.store)%F.
Proof.
  destruct (X2_Div_flux_overloads Symbolic.mesh_plain Symbolic.store)
    as (H2 & H3).
  split; [by split_and!|]. split.
  - exact (H2 Symbolic.ref_u Symbolic.ref_h Symbolic.u Symbolic.h
             eq_refl eq_refl).
  - exact (H3 Symbolic.ref_v Symbolic.ref_f Symbolic.v Symbolic.f
             Symbolic.M_U1 CELL_YLOW eq_refl eq_refl).
Defined.

(** X4 on the sample store: [f] is stored at the X-low face. *)
Lemma X4_default_location_idempotent_witness :
  (Symbolic.store !! Symbolic.ref_f = Some (OField3D Symbolic.f)
   ∧ getLocation Symbolic.f ≠ CELL_VSHIFT)
  ∧ Grad_Field3D_xyz Symbolic.ref_f CELL_DEFAULT CELL_YLOW CELL_DEFAULT
      Symbolic.store
    = Grad_Field3D_xyz Symbolic.ref_f CELL_XLOW CELL_YLOW CELL_XLOW
        Symbolic.store
  ∧ Grad_Field3D Symbolic.ref_f CELL_DEFAULT Symbolic.store
    = Grad_Field3D Symbolic.ref_f CELL_XLOW Symbolic.store.
Proof.
  destruct (X4_default_location_idempotent (BoutReal:=Z) Symbolic.mesh_plain
              Symbolic.store) as (_ & _ & Hxyz & Hone).
  split; [split; [reflexivity|discriminate]|]. split.
  - exact (Hxyz Symbolic.ref_f Symbolic.f CELL_DEFAULT CELL_YLOW CELL_DEFAULT
             eq_refl).
  - refine (Hone Symbolic.ref_f Symbolic.f eq_refl _). discriminate.
Defined.

(** X5 on the sample store: the covariant [a] advected by itself takes the
    covariant branch, with the raised copy of [a] as velocity. *)
Lemma X5_V_dot_Grad_self_advection_witness :
  (Symbolic.store !! Symbolic.ref_a = Some (OVector3D Symbolic.a)
   ∧ Symbolic.store !! Symbolic.ref_u = Some (OVector2D Symbolic.u))
  ∧ V_dot_Grad_Vector3D_Vector3D Symbolic.mesh_plain Symbolic.ref_a
      Symbolic.ref_a Symbolic.store
    = Some (V_dot_Grad_value Symbolic.metric (contravariant_of Symbolic.a)
              Symbolic.a, Symbolic.store)
  ∧ covariant <$> (fst <$> V_dot_Grad_Vector3D_Vector3D Symbolic.mesh_plain
                             Symbolic.ref_a Symbolic.ref_a Symbolic.store)
    = Some true
  ∧ covariant <$> (fst <$> V_dot_Grad_Vector2D_Vector2D Symbolic.mesh_plain
                             Symbolic.ref_u Symbolic.ref_u Symbolic.store)
    = Some false.
Proof.
  destruct (X5_V_dot_Grad_self_advection Symbolic.mesh_plain Symbolic.store)
    as (H3 & H2).
  split; [by split|]. split; [|split].
  - exact (proj1 (H3 Symbolic.ref_a Symbolic.a eq_refl)).
  - exact (proj2 (H3 Symbolic.ref_a Symbolic.a eq_refl)).
  - exact (proj2 (H2 Symbolic.ref_u Symbolic.u eq_refl)).
Defined.

(** X6 on the sample store. *)
Lemma X6_Grad_perp_from_Grad_witness :
  Symbolic.store !! Symbolic.ref_f = Some (OField3D Symbolic.f)
  ∧ ∃ gp gx gz,
      Grad_perp Symbolic.mesh_plain Symbolic.ref_f CELL_CENTRE CELL_YLOW
        CELL_ZLOW Symbolic.store = Some (gp, Symbolic.store)
      ∧ Grad_Field3D_xyz Symbolic.ref_f CELL_CENTRE CELL_CENTRE CELL_ZLOW
          Symbolic.store = Some (gx, Symbolic.store)
      ∧ Grad_Field3D_xyz Symbolic.ref_f CELL_CENTRE CELL_ZLOW CELL_ZLOW
          Symbolic.store = Some (gz, Symbolic.store)
      ∧ y gx = DDY Symbolic.f CELL_CENTRE
      ∧ y gz = DDY Symbolic.f CELL_ZLOW
      ∧ Symbolic.data (z gp)
        = Symbolic.Sub
            (Symbolic.DD Zdir (Symbolic.Var "f") (Some CELL_ZLOW))
            (Symbolic.Mul
               (Symbolic.Mul
                  (Symbolic.Mul
                     (Symbolic.Div (Symbolic.Real 1)
                        (Symbolic.Mul (Symbolic.Var "J") (Symbolic.Var "Bxy")))
                     (Symbolic.Div (Symbolic.Real 1)
                        (Symbolic.Mul (Symbolic.Var "J") (Symbolic.Var "Bxy"))))
                  (Symbolic.Var "g_23"))
               (Symbolic.DD Ydir (Symbolic.Var "f") (Some CELL_ZLOW))).
Proof.
  split; [reflexivity|].
  destruct (X6_Grad_perp_from_Grad Symbolic.mesh_plain Symbolic.store
              Symbolic.ref_f Symbolic.f CELL_CENTRE CELL_YLOW CELL_ZLOW
              eq_refl) as (gp & gx & gz & Hp & Hx & Hz & Hxx & Hzz & Hcov).
  exists gp, gx, gz. split_and!; [exact Hp | exact Hx | exact Hz | | |].
  - by injection Hx as <-.
  - by injection Hz as <-.
  - rewrite Hzz. by injection Hz as <-.
Defined.

(** X7 on a bare mesh and on a mesh whose [coords] refers to the one object
    allocated so far. *)
Lemma X7_coordinates_points_to_live_object_witness :
  Mesh_hxx.coords_valid (Mesh_hxx.mkWorld Mesh_hxx.bare_mesh
                           ([] : list (Coordinates Symbolic.expr)))
  ∧ is_Some (Mesh_hxx.deref
               (Mesh_hxx.coordinates (λ _, Symbolic.metric)
                  (Mesh_hxx.mkWorld Mesh_hxx.bare_mesh [])).2
               (Mesh_hxx.coordinates (λ _, Symbolic.metric)
                  (Mesh_hxx.mkWorld Mesh_hxx.bare_mesh [])).1)
  ∧ Mesh_hxx.coords_valid
      (Mesh_hxx.mkWorld (Mesh_hxx.mkMesh (Some Mesh_hxx.no_data) 1)
         [Symbolic.metric])
  ∧ Forall (λ q, is_Some
                   (Mesh_hxx.deref
                      (Mesh_hxx.coordinates_calls (λ _, Symbolic.metric) 2
                         (Mesh_hxx.mkWorld
                            (Mesh_hxx.mkMesh (Some Mesh_hxx.no_data) 1)
                            [Symbolic.metric])).2 q))
      (Mesh_hxx.coordinates_calls (λ _, Symbolic.metric) 2
         (Mesh_hxx.mkWorld (Mesh_hxx.mkMesh (Some Mesh_hxx.no_data) 1)
            [Symbolic.metric])).1.
Proof.
  assert (Mesh_hxx.coords_valid
            (Mesh_hxx.mkWorld Mesh_hxx.bare_mesh
               ([] : list (Coordinates Symbolic.expr)))) as Hbare
    by (left; reflexivity).
  assert (Mesh_hxx.coords_valid
            (Mesh_hxx.mkWorld (Mesh_hxx.mkMesh (Some Mesh_hxx.no_data) 1)
               [Symbolic.metric])) as Hset
    by (right; eexists; reflexivity).
  split; [exact Hbare|]. split.
  - exact (proj1 (X7_coordinates_points_to_live_object
                    (λ _, Symbolic.metric) _ Hbare)).
  - split; [exact Hset|].
    destruct (X7_coordinates_points_to_live_object
                (λ _, Symbolic.metric) _ Hset) as (_ & _ & _ & _ & Hcalls).
    exact (Hcalls 2).
Defined.
